(** * pak_connect: the Windows BLE service plugin

    A shallow embedding of [windows/flutter/ble_service_plugin.cpp] and
    [ble_service_plugin.h]: the method-call dispatcher, the scan, connect,
    GATT and notification operations, and the tables they share.

    The plugin's fields become a record, each operation a function in a
    small state-and-exception monad, and the WinRT Bluetooth stack an
    oracle the operations consult.  Every platform call is recorded in a
    trace, and every message sent to the Dart side in an event log. *)

From Stdlib Require Import ZArith Lia Bool List Ascii String.
From stdpp Require Import base option list strings gmap.

Open Scope Z_scope.

Set Warnings "-register-all".

(** ** The C++ standard library pieces the plugin relies on *)

(** Semantics of [std::basic_istream::operator>>(unsigned long long&)] with
    [std::hex] in force, which is not code of this repository: the plugin
    runs [ss << std::hex << device_id_str; ss >> device_address;] on a
    [device_address] it never initialises.  Following [istream.formatted]
    and [facet.num.get.virtuals]: the sentry skips leading white space and
    fails at end of input, in which case nothing is stored; otherwise the
    longest prefix that reads as an optionally signed, optionally
    [0x]-prefixed hexadecimal numeral is converted as [strtoull] would,
    with zero stored when there is no digit and the largest value when the
    numeral does not fit. *)
Module Cpp.

Definition uint64_max : Z := 2 ^ 64 - 1.

Definition isspace (c : ascii) : bool :=
  let n := nat_of_ascii c in
  (Nat.eqb n 32 || (Nat.leb 9 n && Nat.leb n 13))%bool.

Definition hex_digit (c : ascii) : option Z :=
  let n := Z.of_nat (nat_of_ascii c) in
  if (48 <=? n) && (n <=? 57) then Some (n - 48)
  else if (97 <=? n) && (n <=? 102) then Some (n - 87)
  else if (65 <=? n) && (n <=? 70) then Some (n - 55)
  else None.

Fixpoint skipws (s : string) : string :=
  match s with
  | String c rest => if isspace c then skipws rest else s
  | EmptyString => EmptyString
  end.

(** The digits at the front of [s], accumulated onto [acc]; [seen] tells
    whether a digit was read at all. *)
Fixpoint hex_digits (s : string) (acc : Z) (seen : bool) : Z * bool :=
  match s with
  | String c rest =>
      match hex_digit c with
      | Some d => hex_digits rest (16 * acc + d) true
      | None => (acc, seen)
      end
  | EmptyString => (acc, seen)
  end.

Definition strip_sign (s : string) : bool * string :=
  match s with
  | String "-" rest => (true, rest)
  | String "+" rest => (false, rest)
  | _ => (false, s)
  end.

(** A leading [0x] or [0X]; the zero in it is a digit already read. *)
Definition strip_0x (s : string) : string :=
  match s with
  | String "0" (String "x" rest) => String "0" rest
  | String "0" (String "X" rest) => String "0" rest
  | _ => s
  end.

(** [extract_hex s prev]: what the target holds after the extraction from
    a stream with contents [s], when it held [prev] before. *)
Definition extract_hex (s : string) (prev : Z) : Z :=
  match skipws s with
  | EmptyString => prev
  | s1 =>
      let '(neg, s2) := strip_sign s1 in
      let '(v, seen) := hex_digits (strip_0x s2) 0 false in
      if negb seen then 0
      else if uint64_max <? v then uint64_max
      else if neg then (2 ^ 64 - v) mod 2 ^ 64
      else v
  end.


End Cpp.

(** ** Values exchanged with the Dart side *)

(** [flutter::EncodableValue], restricted to the alternatives the plugin
    reads or builds.  [EInt] is the 32-bit and [ELong] the 64-bit integer
    alternative; [EBytes] is [std::vector<uint8_t>]. *)
Inductive EncodableValue : Type :=
| ENull
| EBool (b : bool)
| EInt (n : Z)
| ELong (n : Z)
| EString (s : string)
| EBytes (l : list Byte.byte)
| EList (l : list EncodableValue)
| EMap (m : list (EncodableValue * EncodableValue)).

Abbreviation EncodableList := (list EncodableValue).
Abbreviation EncodableMap := (list (EncodableValue * EncodableValue)).

Definition is_key (k : string) (v : EncodableValue) : bool :=
  match v with
  | EString s => String.eqb s k
  | _ => false
  end.

(** [args.find(flutter::EncodableValue(k))]; [None] stands for [args.end()]. *)
Fixpoint find (k : string) (args : EncodableMap) : option EncodableValue :=
  match args with
  | [] => None
  | (key, v) :: rest => if is_key k key then Some v else find k rest
  end.

(** The reply handed to [flutter::MethodResult]. *)
Inductive MethodResult : Type :=
| ResultSuccess (v : EncodableValue)
| ResultError (code message : string)
| ResultNotImplemented.

(** ** The WinRT Bluetooth objects *)

Inductive GattCommunicationStatus : Type :=
| Success | Unreachable | ProtocolError | AccessDenied.

Definition is_Success (st : GattCommunicationStatus) : bool :=
  match st with Success => true | _ => false end.

Inductive BluetoothLEAdvertisementWatcherStatus : Type :=
| Created | Started | Stopping | Stopped | Aborted.

Definition is_Started (st : BluetoothLEAdvertisementWatcherStatus) : bool :=
  match st with Started => true | _ => false end.

Inductive GattWriteOption : Type := WriteWithResponse | WriteWithoutResponse.

(** [GattClientCharacteristicConfigurationDescriptorValue]. *)
Inductive CccdValue : Type := CccdNone | CccdNotify.

Definition guid : Type := Z.
Definition event_token : Type := Z.

Record BluetoothLEDevice : Type := {
  BluetoothAddress : Z;
  device_handle : Z
}.

Record GattDeviceService : Type := {
  service_Uuid : guid;
  service_handle : Z
}.

Record GattCharacteristic : Type := {
  characteristic_Uuid : guid;
  CharacteristicProperties : Z;
  characteristic_handle : Z
}.

(** The flag values of [GattCharacteristicProperties] in the Windows SDK. *)
Definition GattCharacteristicProperties_Read : Z := 2.
Definition GattCharacteristicProperties_Write : Z := 8.
Definition GattCharacteristicProperties_Notify : Z := 16.

(** [(props & flag) == flag]. *)
Definition has_flag (props flag : Z) : bool := Z.land props flag =? flag.

Definition same_characteristic (a b : GattCharacteristic) : bool :=
  (characteristic_Uuid a =? characteristic_Uuid b)
  && (CharacteristicProperties a =? CharacteristicProperties b)
  && (characteristic_handle a =? characteristic_handle b).

(** What a call into the platform comes back with: a value, or a C++
    exception ([winrt::hresult_error] and the like). *)
Inductive answer (A : Type) : Type :=
| Returns (a : A)
| Raises.
Arguments Returns {A} a.
Arguments Raises {A}.

(** The platform calls the plugin makes, as they appear in the trace. *)
Inductive PlatformCall : Type :=
| Call_WatcherNew
| Call_WatcherStart
| Call_WatcherStop
| Call_GetDefaultAsync
| Call_FromBluetoothAddressAsync (address : Z)
| Call_GetGattServicesAsync (d : BluetoothLEDevice)
| Call_GetGattServicesForUuidAsync (d : BluetoothLEDevice) (u : guid)
| Call_GetCharacteristicsAsync (s : GattDeviceService)
| Call_GetCharacteristicsForUuidAsync (s : GattDeviceService) (u : guid)
| Call_WriteValueAsync (c : GattCharacteristic) (data : list Byte.byte) (o : GattWriteOption)
| Call_ReadValueAsync (c : GattCharacteristic)
| Call_WriteCccd (c : GattCharacteristic) (v : CccdValue)
| Call_ValueChangedAdd (c : GattCharacteristic) (t : event_token)
| Call_ValueChangedRemove (c : GattCharacteristic) (t : event_token).

(** The platform as an oracle.  Each asynchronous call is answered from
    its arguments and from the number of platform calls made before it, so
    an answer may change from one call to the next.  [winrt_guid] is the
    [winrt::guid] constructor from a string, which throws on a malformed
    one, [guid_to_string] and [address_to_string] stand for the uses of
    [winrt::to_string]; [indeterminate_u64] is what an uninitialised [uint64_t] local
    happens to hold. *)
Record Platform : Type := {
  watcher_new : nat -> answer unit;
  watcher_Start : nat -> answer unit;
  watcher_Stop : nat -> answer unit;
  GetDefaultAsync : nat -> answer (option bool);
  FromBluetoothAddressAsync : nat -> Z -> answer (option BluetoothLEDevice);
  GetGattServicesAsync :
    nat -> BluetoothLEDevice -> answer (GattCommunicationStatus * list GattDeviceService);
  GetGattServicesForUuidAsync :
    nat -> BluetoothLEDevice -> guid -> answer (GattCommunicationStatus * list GattDeviceService);
  GetCharacteristicsAsync :
    nat -> GattDeviceService -> answer (GattCommunicationStatus * list GattCharacteristic);
  GetCharacteristicsForUuidAsync :
    nat -> GattDeviceService -> guid -> answer (GattCommunicationStatus * list GattCharacteristic);
  WriteValueAsync :
    nat -> GattCharacteristic -> list Byte.byte -> GattWriteOption -> answer GattCommunicationStatus;
  ReadValueAsync :
    nat -> GattCharacteristic -> answer (GattCommunicationStatus * list Byte.byte);
  WriteClientCharacteristicConfigurationDescriptorAsync :
    nat -> GattCharacteristic -> CccdValue -> answer GattCommunicationStatus;
  winrt_guid : string -> answer guid;
  guid_to_string : guid -> string;
  address_to_string : Z -> string;
  indeterminate_u64 : Z
}.

(** ** The plugin's state and its surroundings *)

(** What reaches the Dart side: [onScanStateChanged] invocations on the
    method channel, maps pushed into [connection_state_sink_], lists
    pushed into [scan_results_sink_], and payloads pushed into the sink
    of a notification channel (named by the channel). *)
Inductive HostEvent : Type :=
| ScanStateChanged (isScanning : bool)
| ConnectionState (deviceId state : string) (isConnected : bool)
| ScanResult (devices : EncodableValue)
| Notification (channel_name : string) (data : list Byte.byte).

(** A handler registered through [characteristic.ValueChanged(handler)]:
    the characteristic, the token the platform gave back, and the
    [notification_sink] cell the lambda captured. *)
Record Registration : Type := {
  reg_characteristic : GattCharacteristic;
  reg_token : event_token;
  reg_sink : nat
}.

Record World : Type := {
  (* fields of BleServicePlugin *)
  watcher_ : option BluetoothLEAdvertisementWatcherStatus;
  connected_devices_ : gmap Z BluetoothLEDevice;
  notification_tokens_ : gmap string event_token;
  scan_results_sink_ : bool;
  connection_state_sink_ : bool;
  (* the messenger's stream handlers and the notification_sink cells:
     the handler installed last for each channel name, the cells that hold
     a sink, and the channel each allocated cell was made for *)
  stream_handlers : gmap string nat;
  attached_sinks : gset nat;
  sink_channels : list string;
  (* the platform's side *)
  value_changed : list Registration;
  next_token : event_token;
  (* what an observer sees *)
  calls : list PlatformCall;
  events : list HostEvent
}.

Definition set_watcher (v : option BluetoothLEAdvertisementWatcherStatus) (w : World) : World :=
  {| watcher_ := v;
     connected_devices_ := connected_devices_ w;
     notification_tokens_ := notification_tokens_ w;
     scan_results_sink_ := scan_results_sink_ w;
     connection_state_sink_ := connection_state_sink_ w;
     stream_handlers := stream_handlers w;
     attached_sinks := attached_sinks w;
     sink_channels := sink_channels w;
     value_changed := value_changed w;
     next_token := next_token w;
     calls := calls w;
     events := events w |}.

Definition set_connected_devices (m : gmap Z BluetoothLEDevice) (w : World) : World :=
  {| watcher_ := watcher_ w;
     connected_devices_ := m;
     notification_tokens_ := notification_tokens_ w;
     scan_results_sink_ := scan_results_sink_ w;
     connection_state_sink_ := connection_state_sink_ w;
     stream_handlers := stream_handlers w;
     attached_sinks := attached_sinks w;
     sink_channels := sink_channels w;
     value_changed := value_changed w;
     next_token := next_token w;
     calls := calls w;
     events := events w |}.

Definition set_notification_tokens (m : gmap string event_token) (w : World) : World :=
  {| watcher_ := watcher_ w;
     connected_devices_ := connected_devices_ w;
     notification_tokens_ := m;
     scan_results_sink_ := scan_results_sink_ w;
     connection_state_sink_ := connection_state_sink_ w;
     stream_handlers := stream_handlers w;
     attached_sinks := attached_sinks w;
     sink_channels := sink_channels w;
     value_changed := value_changed w;
     next_token := next_token w;
     calls := calls w;
     events := events w |}.

Definition set_sinks (scan conn : bool) (w : World) : World :=
  {| watcher_ := watcher_ w;
     connected_devices_ := connected_devices_ w;
     notification_tokens_ := notification_tokens_ w;
     scan_results_sink_ := scan;
     connection_state_sink_ := conn;
     stream_handlers := stream_handlers w;
     attached_sinks := attached_sinks w;
     sink_channels := sink_channels w;
     value_changed := value_changed w;
     next_token := next_token w;
     calls := calls w;
     events := events w |}.

Definition set_streams (h : gmap string nat) (a : gset nat) (l : list string) (w : World) : World :=
  {| watcher_ := watcher_ w;
     connected_devices_ := connected_devices_ w;
     notification_tokens_ := notification_tokens_ w;
     scan_results_sink_ := scan_results_sink_ w;
     connection_state_sink_ := connection_state_sink_ w;
     stream_handlers := h;
     attached_sinks := a;
     sink_channels := l;
     value_changed := value_changed w;
     next_token := next_token w;
     calls := calls w;
     events := events w |}.

Definition set_value_changed (l : list Registration) (t : event_token) (w : World) : World :=
  {| watcher_ := watcher_ w;
     connected_devices_ := connected_devices_ w;
     notification_tokens_ := notification_tokens_ w;
     scan_results_sink_ := scan_results_sink_ w;
     connection_state_sink_ := connection_state_sink_ w;
     stream_handlers := stream_handlers w;
     attached_sinks := attached_sinks w;
     sink_channels := sink_channels w;
     value_changed := l;
     next_token := t;
     calls := calls w;
     events := events w |}.

Definition log_call (c : PlatformCall) (w : World) : World :=
  {| watcher_ := watcher_ w;
     connected_devices_ := connected_devices_ w;
     notification_tokens_ := notification_tokens_ w;
     scan_results_sink_ := scan_results_sink_ w;
     connection_state_sink_ := connection_state_sink_ w;
     stream_handlers := stream_handlers w;
     attached_sinks := attached_sinks w;
     sink_channels := sink_channels w;
     value_changed := value_changed w;
     next_token := next_token w;
     calls := calls w ++ [c];
     events := events w |}.

Definition log_event (e : HostEvent) (w : World) : World :=
  {| watcher_ := watcher_ w;
     connected_devices_ := connected_devices_ w;
     notification_tokens_ := notification_tokens_ w;
     scan_results_sink_ := scan_results_sink_ w;
     connection_state_sink_ := connection_state_sink_ w;
     stream_handlers := stream_handlers w;
     attached_sinks := attached_sinks w;
     sink_channels := sink_channels w;
     value_changed := value_changed w;
     next_token := next_token w;
     calls := calls w;
     events := events w ++ [e] |}.

(** The plugin as constructed: no watcher, empty tables, no listener. *)
Definition initial_world : World :=
  {| watcher_ := None;
     connected_devices_ := ∅;
     notification_tokens_ := ∅;
     scan_results_sink_ := false;
     connection_state_sink_ := false;
     stream_handlers := ∅;
     attached_sinks := ∅;
     sink_channels := [];
     value_changed := [];
     next_token := 1;
     calls := [];
     events := [] |}.

(** ** Computations: state, C++ exceptions, undefined behaviour *)

(** A computation ends normally with a value, with a C++ exception in
    flight, or in undefined behaviour (a member call through a null WinRT
    reference), which no handler catches. *)
Inductive outcome (A : Type) : Type :=
| Normal (a : A) (w : World)
| Thrown (w : World)
| Undefined.
Arguments Normal {A} a w.
Arguments Thrown {A} w.
Arguments Undefined {A}.

Definition M (A : Type) : Type := World -> outcome A.

Definition ret {A} (a : A) : M A := fun w => Normal a w.

Definition bind {A B} (m : M A) (k : A -> M B) : M B :=
  fun w =>
    match m w with
    | Normal a w' => k a w'
    | Thrown w' => Thrown w'
    | Undefined => Undefined
    end.

Definition throw {A} : M A := fun w => Thrown w.

Definition undefined {A} : M A := fun _ => Undefined.

(** [try { body } catch (...) { handler }]. *)
Definition try_catch {A} (body handler : M A) : M A :=
  fun w =>
    match body w with
    | Thrown w' => handler w'
    | o => o
    end.

Definition gets {A} (f : World -> A) : M A := fun w => Normal (f w) w.

Definition modify (f : World -> World) : M unit := fun w => Normal tt (f w).

Declare Scope plugin_scope.
Delimit Scope plugin_scope with plugin.
Notation "'let*' x := m 'in' k" := (bind m (fun x => k))
  (at level 10, x name, m at level 100, k at level 200, only parsing) : plugin_scope.
Open Scope plugin_scope.

(** A call into the platform: recorded in the trace, answered by the
    oracle at the current call count. *)
Definition platform_call {A} (c : PlatformCall) (ans : nat -> answer A) : M A :=
  fun w =>
    match ans (length (calls w)) with
    | Returns a => Normal a (log_call c w)
    | Raises => Thrown (log_call c w)
    end.

Definition emit (e : HostEvent) : M unit := modify (log_event e).

(** [std::get<T>(v)]: throws [std::bad_variant_access] on another alternative. *)
Definition get_string (v : EncodableValue) : M string :=
  match v with EString s => ret s | _ => throw end.

Definition get_int (v : EncodableValue) : M Z :=
  match v with EInt n => ret n | _ => throw end.

Definition get_bool (v : EncodableValue) : M bool :=
  match v with EBool b => ret b | _ => throw end.

Definition get_bytes (v : EncodableValue) : M (list Byte.byte) :=
  match v with EBytes l => ret l | _ => throw end.

Definition get_map (v : EncodableValue) : M EncodableMap :=
  match v with EMap m => ret m | _ => throw end.

(** A pure library call that may throw. *)
Definition of_answer {A} (a : answer A) : M A :=
  match a with Returns x => ret x | Raises => throw end.

(** ** The operations of [BleServicePlugin] *)

Section Plugin.

Variable pf : Platform.

(** [uint64_t device_address; std::stringstream ss;
     ss << std::hex << device_id_str; ss >> device_address;]
    For a string with nothing to parse the variable is never written;
    [indeterminate_u64] stands for what one read of it finds, and a
    statement about more than one call takes a deviceId that holds
    something to parse. *)
Definition parse_device_address (device_id_str : string) : Z :=
  Cpp.extract_hex device_id_str (indeterminate_u64 pf).

(** The handler given to [watcher_.Stopped]. *)
Definition on_watcher_stopped : M unit :=
  emit (ScanStateChanged false).

(** The handler given to [watcher_.Received].  The [exists] flag of the
    source is never set, so every advertisement is forwarded. *)
Definition on_watcher_received (address : Z) (local_name : string) (rssi : Z)
    (service_uuids : list guid) : M unit :=
  let name := if String.eqb local_name "" then "Unknown Device"%string else local_name in
  let device_map :=
    [ (EString "deviceId", EString (address_to_string pf address));
      (EString "name", EString name);
      (EString "rssi", EInt rssi);
      (EString "serviceUuids",
       EList (map (fun u => EString (guid_to_string pf u)) service_uuids)) ] in
  let* sink := gets scan_results_sink_ in
  if sink then emit (ScanResult (EList [EMap device_map])) else ret tt.

(** A fresh watcher takes the place of [watcher_]; the two handlers
    registered on it are [on_watcher_received] and [on_watcher_stopped]. *)
Definition InitializeBluetooth : M bool :=
  try_catch
    (let* _ := platform_call Call_WatcherNew (watcher_new pf) in
     let* _ := modify (set_watcher (Some Created)) in
     ret true)
    (ret false).

Definition IsBluetoothAvailable : M bool :=
  try_catch
    (let* adapter := platform_call Call_GetDefaultAsync (GetDefaultAsync pf) in
     match adapter with
     | Some powered_on => ret powered_on
     | None => ret false
     end)
    (ret false).

(** [watcher_.Stop()]: a call through [watcher_], which must not be null. *)
Definition watcher_stop : M unit :=
  let* st := gets watcher_ in
  match st with
  | None => undefined
  | Some _ =>
      let* _ := platform_call Call_WatcherStop (watcher_Stop pf) in
      modify (set_watcher (Some Stopped))
  end.

(** [watcher_.Start()]. *)
Definition watcher_start : M unit :=
  let* st := gets watcher_ in
  match st with
  | None => undefined
  | Some _ =>
      let* _ := platform_call Call_WatcherStart (watcher_Start pf) in
      modify (set_watcher (Some Started))
  end.

(** [watcher_ != nullptr && watcher_.Status() == Started]. *)
Definition watcher_is_started (w : World) : bool :=
  match watcher_ w with
  | Some st => is_Started st
  | None => false
  end.

Definition StartScan (args : EncodableMap) : M bool :=
  try_catch
    (let* running := gets watcher_is_started in
     let* _ := (if running then watcher_stop else ret tt) in
     let* timeout_ms :=
       match find "timeoutMs" args with
       | Some v => get_int v
       | None => ret 10000
       end in
     let* _ := watcher_start in
     let* _ := emit (ScanStateChanged true) in
     (* if (timeout_ms > 0) { the block is empty: no timer is set up } *)
     let* _ := (if 0 <? timeout_ms then ret tt else ret tt) in
     ret true)
    (ret false).

Definition StopScan : M bool :=
  try_catch
    (let* running := gets watcher_is_started in
     let* _ :=
       (if running
        then let* _ := watcher_stop in emit (ScanStateChanged false)
        else ret tt) in
     ret true)
    (ret false).

Definition ConnectToDevice (args : EncodableMap) : M bool :=
  try_catch
    (match find "deviceId" args with
     | None => ret false
     | Some id =>
         let* device_id_str := get_string id in
         let device_address := parse_device_address device_id_str in
         let* device :=
           platform_call (Call_FromBluetoothAddressAsync device_address)
             (fun t => FromBluetoothAddressAsync pf t device_address) in
         match device with
         | None => ret false
         | Some device =>
             let* _ := modify (fun w =>
               set_connected_devices (<[device_address := device]> (connected_devices_ w)) w) in
             let* sink := gets connection_state_sink_ in
             let* _ :=
               (if sink
                then emit (ConnectionState device_id_str "connected" true)
                else ret tt) in
             ret true
         end
     end)
    (ret false).

Definition DisconnectDevice (args : EncodableMap) : M bool :=
  try_catch
    (match find "deviceId" args with
     | None => ret false
     | Some id =>
         let* device_id_str := get_string id in
         let device_address := parse_device_address device_id_str in
         let* _ := modify (fun w =>
           set_connected_devices (delete device_address (connected_devices_ w)) w) in
         let* sink := gets connection_state_sink_ in
         let* _ :=
           (if sink
            then emit (ConnectionState device_id_str "disconnected" false)
            else ret tt) in
         ret true
     end)
    (ret false).

(** The lookup every GATT operation starts with:
    [connected_devices_.find(device_address)], [None] for a null [device]. *)
Definition lookup_device (device_address : Z) : M (option BluetoothLEDevice) :=
  gets (fun w => connected_devices_ w !! device_address).

(** The property names of a characteristic, as [DiscoverServices] and
    [CharacteristicToMap] list them. *)
Definition properties_list (props : Z) : EncodableList :=
  (if has_flag props GattCharacteristicProperties_Read then [EString "read"] else [])
  ++ (if has_flag props GattCharacteristicProperties_Write then [EString "write"] else [])
  ++ (if has_flag props GattCharacteristicProperties_Notify then [EString "notify"] else []).

Definition CharacteristicToMap (characteristic : GattCharacteristic) : EncodableValue :=
  EMap [ (EString "properties",
          EList (properties_list (CharacteristicProperties characteristic)));
         (EString "uuid",
          EString (guid_to_string pf (characteristic_Uuid characteristic))) ].

(** One service of the topology, given the outcome of its characteristic
    enumeration: the characteristics are listed only on [Success]. *)
Definition service_entry (service : GattDeviceService)
    (characteristics : GattCommunicationStatus * list GattCharacteristic) : EncodableValue :=
  let characteristics_list :=
    if is_Success (fst characteristics)
    then map CharacteristicToMap (snd characteristics)
    else [] in
  EMap [ (EString "characteristics", EList characteristics_list);
         (EString "uuid", EString (guid_to_string pf (service_Uuid service))) ].

(** The loop [for (auto service : services.Services())]. *)
Fixpoint discover_loop (services : list GattDeviceService)
    (service_list : EncodableList) : M EncodableList :=
  match services with
  | [] => ret service_list
  | service :: rest =>
      let* characteristics :=
        platform_call (Call_GetCharacteristicsAsync service)
          (fun t => GetCharacteristicsAsync pf t service) in
      discover_loop rest (service_list ++ [service_entry service characteristics])
  end.

Definition DiscoverServices (args : EncodableMap) : M EncodableList :=
  try_catch
    (match find "deviceId" args with
     | None => ret []
     | Some id =>
         let* device_id_str := get_string id in
         let device_address := parse_device_address device_id_str in
         let* device := lookup_device device_address in
         match device with
         | None => ret []
         | Some device =>
             let* services :=
               platform_call (Call_GetGattServicesAsync device)
                 (fun t => GetGattServicesAsync pf t device) in
             if is_Success (fst services)
             then discover_loop (snd services) []
             else ret []
         end
     end)
    (ret []).

(** The resolution shared by write, read, subscribe and unsubscribe:
    the first service for the UUID, then its first characteristic for the
    UUID; [None] where the source leaves with its failure value. *)
Definition resolve_characteristic (device : BluetoothLEDevice)
    (service_uuid_str char_uuid_str : string) : M (option GattCharacteristic) :=
  let* service_uuid := of_answer (winrt_guid pf service_uuid_str) in
  let* services :=
    platform_call (Call_GetGattServicesForUuidAsync device service_uuid)
      (fun t => GetGattServicesForUuidAsync pf t device service_uuid) in
  match services with
  | (Success, service :: _) =>
      let* char_uuid := of_answer (winrt_guid pf char_uuid_str) in
      let* characteristics :=
        platform_call (Call_GetCharacteristicsForUuidAsync service char_uuid)
          (fun t => GetCharacteristicsForUuidAsync pf t service char_uuid) in
      match characteristics with
      | (Success, characteristic :: _) => ret (Some characteristic)
      | _ => ret None
      end
  | _ => ret None
  end.

(** The payload and [withResponse] are read through the reference
    parameter [args] after the two awaits of the resolution; the map is
    taken to be alive there, as it is while no await has suspended the
    coroutine. *)
Definition WriteCharacteristic (args : EncodableMap) : M bool :=
  try_catch
    (match find "deviceId" args, find "serviceUuid" args,
           find "characteristicUuid" args, find "data" args with
     | Some id, Some service_uuid, Some char_uuid, Some data =>
         let* device_id_str := get_string id in
         let device_address := parse_device_address device_id_str in
         let* service_uuid_str := get_string service_uuid in
         let* char_uuid_str := get_string char_uuid in
         let* device := lookup_device device_address in
         match device with
         | None => ret false
         | Some device =>
             let* found := resolve_characteristic device service_uuid_str char_uuid_str in
             match found with
             | None => ret false
             | Some characteristic =>
                 let* data_bytes := get_bytes data in
                 let* write_option :=
                   match find "withResponse" args with
                   | Some v =>
                       let* with_response := get_bool v in
                       ret (if with_response then WriteWithResponse else WriteWithoutResponse)
                   | None => ret WriteWithResponse
                   end in
                 let* result :=
                   platform_call (Call_WriteValueAsync characteristic data_bytes write_option)
                     (fun t => WriteValueAsync pf t characteristic data_bytes write_option) in
                 ret (is_Success result)
             end
         end
     | _, _, _, _ => ret false
     end)
    (ret false).

(** [flutter::EncodableValue()] is [ENull]; a payload comes back as
    [flutter::EncodableValue(result_bytes)], that is [EBytes]. *)
Definition ReadCharacteristic (args : EncodableMap) : M EncodableValue :=
  try_catch
    (match find "deviceId" args, find "serviceUuid" args,
           find "characteristicUuid" args with
     | Some id, Some service_uuid, Some char_uuid =>
         let* device_id_str := get_string id in
         let device_address := parse_device_address device_id_str in
         let* service_uuid_str := get_string service_uuid in
         let* char_uuid_str := get_string char_uuid in
         let* device := lookup_device device_address in
         match device with
         | None => ret ENull
         | Some device =>
             let* found := resolve_characteristic device service_uuid_str char_uuid_str in
             match found with
             | None => ret ENull
             | Some characteristic =>
                 let* value_result :=
                   platform_call (Call_ReadValueAsync characteristic)
                     (fun t => ReadValueAsync pf t characteristic) in
                 if is_Success (fst value_result)
                 then ret (EBytes (snd value_result))
                 else ret ENull
             end
         end
     | _, _, _ => ret ENull
     end)
    (ret ENull).

(** [std::make_unique<EventChannel>(messenger, channel_name, ...)] with a
    fresh [notification_sink] cell, and [SetStreamHandler]: the messenger
    keeps one handler per channel name, the new one fills the new cell. *)
Definition install_stream_handler (channel_name : string) : M nat :=
  fun w =>
    let cell := length (sink_channels w) in
    Normal cell
      (set_streams (<[channel_name := cell]> (stream_handlers w))
                   (attached_sinks w) (sink_channels w ++ [channel_name]) w).

(** [characteristic.ValueChanged(handler)]: the platform adds the handler
    and hands back a fresh token.  A registration that throws is not
    represented; it would leave nothing registered and nothing stored. *)
Definition ValueChanged_add (characteristic : GattCharacteristic) (cell : nat) : M event_token :=
  fun w =>
    let token := next_token w in
    Normal token
      (log_call (Call_ValueChangedAdd characteristic token)
         (set_value_changed
            (value_changed w ++
               [{| reg_characteristic := characteristic;
                   reg_token := token;
                   reg_sink := cell |}])
            (token + 1) w)).

Definition registered_as (characteristic : GattCharacteristic) (token : event_token)
    (r : Registration) : bool :=
  same_characteristic (reg_characteristic r) characteristic && (reg_token r =? token).

(** [characteristic.ValueChanged(token)]: the platform drops the handler
    registered on this characteristic under the token. *)
Definition ValueChanged_remove (characteristic : GattCharacteristic) (token : event_token) : M unit :=
  modify (fun w =>
    log_call (Call_ValueChangedRemove characteristic token)
      (set_value_changed
         (List.filter (fun r => negb (registered_as characteristic token r)) (value_changed w))
         (next_token w) w)).

(** [device_id_str + "_" + service_uuid_str + "_" + char_uuid_str]. *)
Definition subscription_key (device_id_str service_uuid_str char_uuid_str : string) : string :=
  device_id_str +:+ "_" +:+ service_uuid_str +:+ "_" +:+ char_uuid_str.

Definition SubscribeToCharacteristic (args : EncodableMap) : M bool :=
  try_catch
    (match find "deviceId" args, find "serviceUuid" args,
           find "characteristicUuid" args, find "notificationChannel" args with
     | Some id, Some service_uuid, Some char_uuid, Some channel =>
         let* device_id_str := get_string id in
         let device_address := parse_device_address device_id_str in
         let* service_uuid_str := get_string service_uuid in
         let* char_uuid_str := get_string char_uuid in
         let* channel_name := get_string channel in
         let* device := lookup_device device_address in
         match device with
         | None => ret false
         | Some device =>
             let* found := resolve_characteristic device service_uuid_str char_uuid_str in
             match found with
             | None => ret false
             | Some characteristic =>
                 if negb (has_flag (CharacteristicProperties characteristic)
                            GattCharacteristicProperties_Notify)
                 then ret false
                 else
                   let* notification_sink := install_stream_handler channel_name in
                   let* status :=
                     platform_call (Call_WriteCccd characteristic CccdNotify)
                       (fun t => WriteClientCharacteristicConfigurationDescriptorAsync
                                   pf t characteristic CccdNotify) in
                   if negb (is_Success status)
                   then ret false
                   else
                     let* token := ValueChanged_add characteristic notification_sink in
                     let key := subscription_key device_id_str service_uuid_str char_uuid_str in
                     let* _ := modify (fun w =>
                       set_notification_tokens (<[key := token]> (notification_tokens_ w)) w) in
                     ret true
             end
         end
     | _, _, _, _ => ret false
     end)
    (ret false).

Definition UnsubscribeFromCharacteristic (args : EncodableMap) : M bool :=
  try_catch
    (match find "deviceId" args, find "serviceUuid" args,
           find "characteristicUuid" args with
     | Some id, Some service_uuid, Some char_uuid =>
         let* device_id_str := get_string id in
         let device_address := parse_device_address device_id_str in
         let* service_uuid_str := get_string service_uuid in
         let* char_uuid_str := get_string char_uuid in
         let* device := lookup_device device_address in
         match device with
         | None => ret false
         | Some device =>
             let* found := resolve_characteristic device service_uuid_str char_uuid_str in
             match found with
             | None => ret false
             | Some characteristic =>
                 let* status :=
                   platform_call (Call_WriteCccd characteristic CccdNone)
                     (fun t => WriteClientCharacteristicConfigurationDescriptorAsync
                                 pf t characteristic CccdNone) in
                 let key := subscription_key device_id_str service_uuid_str char_uuid_str in
                 let* stored := gets (fun w => notification_tokens_ w !! key) in
                 let* _ :=
                   match stored with
                   | Some token =>
                       let* _ := ValueChanged_remove characteristic token in
                       modify (fun w =>
                         set_notification_tokens (delete key (notification_tokens_ w)) w)
                   | None => ret tt
                   end in
                 ret (is_Success status)
             end
         end
     | _, _, _ => ret false
     end)
    (ret false).

(** The teardown shared by the [dispose] branch and the destructor: stop
    the watcher if there is one, swallowing what that throws, and clear
    the device map.  Nothing else is touched. *)
Definition teardown : M unit :=
  let* st := gets watcher_ in
  let* _ :=
    match st with
    | Some _ => try_catch watcher_stop (ret tt)
    | None => ret tt
    end in
  modify (set_connected_devices ∅).

(** [BleServicePlugin::~BleServicePlugin()]: the body of the destructor. *)
Definition destructor : M unit := teardown.

(** [operation.Completed(...)]: the reply once an operation has run.  A
    coroutine that ends by an exception completes with an error status. *)
Definition completed {A} (operation : M A) (encode : A -> EncodableValue)
    (code message : string) : M MethodResult :=
  fun w =>
    match operation w with
    | Normal a w' => Normal (ResultSuccess (encode a)) w'
    | Thrown w' => Normal (ResultError code message) w'
    | Undefined => Undefined
    end.

(** [if (!arguments) { result->Error(...); return; }
     auto args_map = std::get<flutter::EncodableMap>( *arguments);]
    The [std::get] stands outside every [try] block. *)
Definition with_args_map (arguments : option EncodableValue)
    (k : EncodableMap -> M MethodResult) : M MethodResult :=
  match arguments with
  | None => ret (ResultError "argument_error" "Arguments required")
  | Some v => let* args_map := get_map v in k args_map
  end.

Definition HandleMethodCall (method_name : string)
    (arguments : option EncodableValue) : M MethodResult :=
  if String.eqb method_name "initialize" then
    completed InitializeBluetooth EBool
      "initialize_error" "Failed to initialize Bluetooth"
  else if String.eqb method_name "isBluetoothAvailable" then
    completed IsBluetoothAvailable EBool
      "bluetooth_error" "Failed to check Bluetooth availability"
  else if String.eqb method_name "startScan" then
    with_args_map arguments (fun args_map =>
      completed (StartScan args_map) EBool
        "scan_error" "Failed to start scanning")
  else if String.eqb method_name "stopScan" then
    completed StopScan EBool "scan_error" "Failed to stop scanning"
  else if String.eqb method_name "connectToDevice" then
    with_args_map arguments (fun args_map =>
      completed (ConnectToDevice args_map) EBool
        "connection_error" "Failed to connect to device")
  else if String.eqb method_name "disconnectDevice" then
    with_args_map arguments (fun args_map =>
      completed (DisconnectDevice args_map) EBool
        "disconnect_error" "Failed to disconnect device")
  else if String.eqb method_name "discoverServices" then
    with_args_map arguments (fun args_map =>
      completed (DiscoverServices args_map) EList
        "service_error" "Failed to discover services")
  else if String.eqb method_name "writeCharacteristic" then
    with_args_map arguments (fun args_map =>
      completed (WriteCharacteristic args_map) EBool
        "write_error" "Failed to write characteristic")
  else if String.eqb method_name "readCharacteristic" then
    with_args_map arguments (fun args_map =>
      completed (ReadCharacteristic args_map) (fun v => v)
        "read_error" "Failed to read characteristic")
  else if String.eqb method_name "subscribeToCharacteristic" then
    with_args_map arguments (fun args_map =>
      completed (SubscribeToCharacteristic args_map) EBool
        "subscribe_error" "Failed to subscribe to characteristic")
  else if String.eqb method_name "unsubscribeFromCharacteristic" then
    with_args_map arguments (fun args_map =>
      completed (UnsubscribeFromCharacteristic args_map) EBool
        "unsubscribe_error" "Failed to unsubscribe from characteristic")
  else if String.eqb method_name "startAdvertising" then
    ret (ResultSuccess (EBool false))
  else if String.eqb method_name "stopAdvertising" then
    ret (ResultSuccess (EBool true))
  else if String.eqb method_name "dispose" then
    let* _ := teardown in
    ret (ResultSuccess (EBool true))
  else
    ret ResultNotImplemented.

(** ** What can happen to the plugin *)

(** The plugin is driven from outside: by method calls from Dart, by the
    stream listeners Dart attaches and cancels, and by the handlers it
    gave to the platform.  It sets up no timer, so the passing of time as
    such runs none of its code.  [WatcherStopped] is the Stopped handler
    being run; the status the plugin reads from the watcher changes with
    its own Start and Stop calls only, so a watcher the platform has
    stopped by itself is not represented. *)
Inductive Stimulus : Type :=
| MethodCall (method_name : string) (arguments : option EncodableValue)
| StreamListen (channel_name : string)
| StreamCancel (channel_name : string)
| WatcherReceived (address : Z) (local_name : string) (rssi : Z) (service_uuids : list guid)
| WatcherStopped
| ValueChangedRaised (characteristic : GattCharacteristic) (data : list Byte.byte)
| TimeElapsed (ms : Z).

Definition scan_results_channel : string := "pak_connect/ble_windows/scan_results".
Definition connection_state_channel : string := "pak_connect/ble_windows/connection_state".

(** The listen and cancel handlers: those of a notification channel fill
    or empty the cell of the handler installed last for the name, those
    set up by the constructor fill or reset the plugin's own sinks. *)
Definition on_stream (channel_name : string) (listening : bool) : M unit :=
  modify (fun w =>
    match stream_handlers w !! channel_name with
    | Some cell =>
        set_streams (stream_handlers w)
          (if listening then attached_sinks w ∪ {[cell]} else attached_sinks w ∖ {[cell]})
          (sink_channels w) w
    | None =>
        if String.eqb channel_name scan_results_channel
        then set_sinks listening (connection_state_sink_ w) w
        else if String.eqb channel_name connection_state_channel
        then set_sinks (scan_results_sink_ w) listening w
        else w
    end).

(** The lambda given to [characteristic.ValueChanged]: forward the payload
    when the captured cell holds a sink. *)
Definition value_changed_handler (r : Registration) (data : list Byte.byte) : M unit :=
  let* attached := gets (fun w => bool_decide (reg_sink r ∈ attached_sinks w)) in
  let* channel_name := gets (fun w => default ""%string (sink_channels w !! reg_sink r)) in
  if attached then emit (Notification channel_name data) else ret tt.

Fixpoint for_each {A} (f : A -> M unit) (l : list A) : M unit :=
  match l with
  | [] => ret tt
  | x :: rest => let* _ := f x in for_each f rest
  end.

(** The platform raising [ValueChanged] on a characteristic: every handler
    registered on it runs. *)
Definition raise_value_changed (characteristic : GattCharacteristic)
    (data : list Byte.byte) : M unit :=
  let* handlers := gets (fun w =>
    List.filter (fun r => same_characteristic (reg_characteristic r) characteristic)
      (value_changed w)) in
  for_each (fun r => value_changed_handler r data) handlers.

Definition deliver (s : Stimulus) : M (option MethodResult) :=
  match s with
  | MethodCall method_name arguments =>
      let* r := HandleMethodCall method_name arguments in ret (Some r)
  | StreamListen channel_name => let* _ := on_stream channel_name true in ret None
  | StreamCancel channel_name => let* _ := on_stream channel_name false in ret None
  | WatcherReceived address local_name rssi service_uuids =>
      let* _ := on_watcher_received address local_name rssi service_uuids in ret None
  | WatcherStopped => let* _ := on_watcher_stopped in ret None
  | ValueChangedRaised characteristic data =>
      let* _ := raise_value_changed characteristic data in ret None
  | TimeElapsed _ => ret None
  end.

(** A run: the stimuli in order, with the replies to the method calls. *)
Fixpoint run (l : list Stimulus) : M (list MethodResult) :=
  match l with
  | [] => ret []
  | s :: rest =>
      let* r := deliver s in
      let* rs := run rest in
      ret (match r with Some x => x :: rs | None => rs end)
  end.

End Plugin.

(** ** Concrete surroundings for the examples *)

Definition Device (address : Z) : BluetoothLEDevice :=
  {| BluetoothAddress := address; device_handle := 1 |}.

Definition Service (u : guid) : GattDeviceService :=
  {| service_Uuid := u; service_handle := u |}.

(** A characteristic that can be read and notifies. *)
Definition Characteristic (u : guid) : GattCharacteristic :=
  {| characteristic_Uuid := u;
     CharacteristicProperties := 18;
     characteristic_handle := u |}.

(** A platform on which every device answers, every UUID string of
    length [n] names the service and the characteristic numbered [n],
    every device has the services 1, 2 and 3, and every read returns an
    empty payload.  The two parameters are the answers to the full
    characteristic enumeration and to the descriptor write. *)
Definition platform_with
    (enumerate : GattDeviceService -> answer (GattCommunicationStatus * list GattCharacteristic))
    (cccd : CccdValue -> answer GattCommunicationStatus) : Platform :=
  {| watcher_new := fun _ => Returns tt;
     watcher_Start := fun _ => Returns tt;
     watcher_Stop := fun _ => Returns tt;
     GetDefaultAsync := fun _ => Returns (Some true);
     FromBluetoothAddressAsync := fun _ address => Returns (Some (Device address));
     GetGattServicesAsync := fun _ _ => Returns (Success, [Service 1; Service 2; Service 3]);
     GetGattServicesForUuidAsync := fun _ _ u => Returns (Success, [Service u]);
     GetCharacteristicsAsync := fun _ s => enumerate s;
     GetCharacteristicsForUuidAsync := fun _ _ u => Returns (Success, [Characteristic u]);
     WriteValueAsync := fun _ _ _ _ => Returns Success;
     ReadValueAsync := fun _ _ => Returns (Success, []);
     WriteClientCharacteristicConfigurationDescriptorAsync := fun _ _ v => cccd v;
     winrt_guid := fun s => Returns (Z.of_nat (String.length s));
     guid_to_string :=
       fun u => if u =? 1 then "one"%string else if u =? 2 then "two"%string else "other"%string;
     address_to_string := fun _ => "address"%string;
     indeterminate_u64 := 3435973836 |}.

Definition demo_platform : Platform :=
  platform_with (fun s => Returns (Success, [Characteristic (service_Uuid s)]))
                (fun _ => Returns Success).

(** The characteristic enumeration of service 2 reports [Unreachable]. *)
Definition flaky_platform : Platform :=
  platform_with
    (fun s => if service_Uuid s =? 2 then Returns (Unreachable, [])
              else Returns (Success, [Characteristic (service_Uuid s)]))
    (fun _ => Returns Success).

Definition device_args (device_id : string) : EncodableMap :=
  [ (EString "deviceId", EString device_id) ].

Definition characteristic_args (device_id : string) : EncodableMap :=
  [ (EString "deviceId", EString device_id);
    (EString "serviceUuid", EString "s");
    (EString "characteristicUuid", EString "c") ].

Definition subscribe_args (device_id channel : string) : EncodableMap :=
  characteristic_args device_id ++ [ (EString "notificationChannel", EString channel) ].

Definition scan_args (timeout_ms : Z) : EncodableMap :=
  [ (EString "timeoutMs", EInt timeout_ms) ].

(** The plugin with the device at address [0xa1] connected. *)
Definition connected_world : World :=
  set_connected_devices {[ 161 := Device 161 ]} initial_world.

Definition call (method_name : string) (args : EncodableMap) : Stimulus :=
  MethodCall method_name (Some (EMap args)).

(** The world a computation ended in ([w] itself if it did not end
    normally), and the replies a run ended with. *)
Definition world_after {A} (m : M A) (w : World) : World :=
  match m w with Normal _ w' => w' | _ => w end.

Definition replies {A} (o : outcome A) : option A :=
  match o with Normal a _ => Some a | _ => None end.

(** ** Predicates the statements use *)

(** The read goes through with payload [data]: the three arguments are
    strings, the device is in the registry, service and characteristic
    resolve, and the platform answers the read with [Success] and [data]. *)
Definition read_succeeds (pf : Platform) (args : EncodableMap) (w : World)
    (data : list Byte.byte) : Prop :=
  exists id service_uuid char_uuid device characteristic w1,
    find "deviceId" args = Some (EString id)
    /\ find "serviceUuid" args = Some (EString service_uuid)
    /\ find "characteristicUuid" args = Some (EString char_uuid)
    /\ connected_devices_ w !! parse_device_address pf id = Some device
    /\ resolve_characteristic pf device service_uuid char_uuid w
         = Normal (Some characteristic) w1
    /\ ReadValueAsync pf (length (calls w1)) characteristic = Returns (Success, data).


Definition tokens_after {A} (o : outcome A) : list (string * event_token) :=
  match o with Normal _ w => map_to_list (notification_tokens_ w) | _ => [] end.

Definition handlers_after {A} (o : outcome A) : list Registration :=
  match o with Normal _ w => value_changed w | _ => [] end.

Definition events_after {A} (o : outcome A) : list HostEvent :=
  match o with Normal _ w => events w | _ => [] end.

Definition watcher_after {A} (o : outcome A) : option BluetoothLEAdvertisementWatcherStatus :=
  match o with Normal _ w => watcher_ w | _ => None end.

(** Everything but the trace of platform calls is as before. *)
Definition same_tables (w w1 : World) : Prop :=
  watcher_ w1 = watcher_ w
  /\ connected_devices_ w1 = connected_devices_ w
  /\ notification_tokens_ w1 = notification_tokens_ w
  /\ scan_results_sink_ w1 = scan_results_sink_ w
  /\ connection_state_sink_ w1 = connection_state_sink_ w
  /\ stream_handlers w1 = stream_handlers w
  /\ attached_sinks w1 = attached_sinks w
  /\ sink_channels w1 = sink_channels w
  /\ value_changed w1 = value_changed w
  /\ next_token w1 = next_token w
  /\ events w1 = events w.

(** The world right after the first subscription of the examples, and
    after a second one on the same key and channel. *)
Definition subscribed_world : World :=
  world_after (SubscribeToCharacteristic demo_platform (subscribe_args "a1" "n1"))
    connected_world.

Definition resubscribed_world : World :=
  world_after (SubscribeToCharacteristic demo_platform (subscribe_args "a1" "n1"))
    subscribed_world.

(** Connect, subscribe and listen, subscribe again on the same key and
    channel and listen again; then the characteristic changes once. *)
Definition resubscribe_script : list Stimulus :=
  [ call "connectToDevice" (device_args "a1");
    call "subscribeToCharacteristic" (subscribe_args "a1" "n1");
    StreamListen "n1";
    call "subscribeToCharacteristic" (subscribe_args "a1" "n1");
    StreamListen "n1";
    ValueChangedRaised (Characteristic 1) [Byte.x01; Byte.x02; Byte.x03] ].


(** A platform on which the characteristic enumeration of service 2 throws. *)
Definition enumeration_throws_platform : Platform :=
  platform_with
    (fun s => if service_Uuid s =? 2 then Raises
              else Returns (Success, [Characteristic (service_Uuid s)]))
    (fun _ => Returns Success).

(** The world of [subscribed_world] once the characteristic is resolved. *)
Definition resolved_world : World :=
  log_call (Call_GetCharacteristicsForUuidAsync (Service 1) 1)
    (log_call (Call_GetGattServicesForUuidAsync (Device 161) 1) subscribed_world).

(** Connect, subscribe, listen. *)
Definition subscribe_script : list Stimulus :=
  [ call "connectToDevice" (device_args "a1");
    call "subscribeToCharacteristic" (subscribe_args "a1" "n1");
    StreamListen "n1" ].

Definition value_changes : Stimulus :=
  ValueChangedRaised (Characteristic 1) [Byte.x07].

(** ... then unsubscribe, and the characteristic changes. *)
Definition unsubscribe_script : list Stimulus :=
  subscribe_script ++
  [ call "unsubscribeFromCharacteristic" (characteristic_args "a1"); value_changes ].


(** ... then disconnect, and the characteristic changes. *)
Definition disconnect_script : list Stimulus :=
  subscribe_script ++ [ call "disconnectDevice" (device_args "a1"); value_changes ].

(** ... then dispose, and the characteristic changes. *)
Definition dispose_script : list Stimulus :=
  subscribe_script ++ [ MethodCall "dispose" None; value_changes ].

(** A platform on which every descriptor write is refused. *)
Definition cccd_refused_platform : Platform :=
  platform_with (fun s => Returns (Success, [Characteristic (service_Uuid s)]))
                (fun _ => Returns AccessDenied).

(** A platform on which disabling notifications reports [Unreachable]. *)
Definition cccd_none_fails_platform : Platform :=
  platform_with (fun s => Returns (Success, [Characteristic (service_Uuid s)]))
                (fun v => match v with
                          | CccdNone => Returns Unreachable
                          | CccdNotify => Returns Success
                          end).

(** The timeout of a startScan call is absent or a 32-bit integer. *)
Definition timeout_readable (args : EncodableMap) : Prop :=
  match find "timeoutMs" args with
  | None | Some (EInt _) => True
  | Some _ => False
  end.

Definition scan_timeout_script : list Stimulus :=
  [ MethodCall "initialize" None;
    call "startScan" (scan_args 100);
    TimeElapsed 100;
    TimeElapsed 60000 ].

(** The methods whose branch reads [arguments] as a map. *)
Definition takes_arguments (method_name : string) : bool :=
  bool_decide (method_name ∈
    [ "startScan"; "connectToDevice"; "disconnectDevice"; "discoverServices";
      "writeCharacteristic"; "readCharacteristic"; "subscribeToCharacteristic";
      "unsubscribeFromCharacteristic" ]%string).

(** The scan-state events of a log. *)
Definition is_scan_event (e : HostEvent) : bool :=
  match e with ScanStateChanged _ => true | _ => false end.

Definition scan_events (l : list HostEvent) : list HostEvent :=
  List.filter is_scan_event l.

(** The stimuli that are no scan command and not the platform stopping
    the watcher: every other method call, the stream listeners, the
    advertisements, the value changes and the passing of time. *)
Definition scan_command (method_name : string) : bool :=
  bool_decide (method_name ∈ [ "initialize"; "startScan"; "stopScan"; "dispose" ]%string).

Definition leaves_scan_alone (s : Stimulus) : bool :=
  match s with
  | MethodCall method_name _ => negb (scan_command method_name)
  | WatcherStopped => false
  | _ => true
  end.

(** The watcher and the scan-state events are as before. *)
Definition scan_frame (w w' : World) : Prop :=
  watcher_ w' = watcher_ w /\ scan_events (events w') = scan_events (events w).

(** A computation that, however it ends, is defined and leaves the
    watcher and the scan-state events as they were. *)
Definition keeps_scan {A} (m : M A) : Prop :=
  forall w,
    match m w with
    | Normal _ w' | Thrown w' => scan_frame w w'
    | Undefined => False
    end.

(** The argument under key [k] is there and is a string. *)
Definition string_argument (k : string) (args : EncodableMap) : Prop :=
  exists s, find k args = Some (EString s).

(** A platform whose characteristics can be read and indicate, but do
    not notify; everything else is as on the example platform. *)
Definition indicate_only_platform : Platform :=
  {| watcher_new := watcher_new demo_platform;
     watcher_Start := watcher_Start demo_platform;
     watcher_Stop := watcher_Stop demo_platform;
     GetDefaultAsync := GetDefaultAsync demo_platform;
     FromBluetoothAddressAsync := FromBluetoothAddressAsync demo_platform;
     GetGattServicesAsync := GetGattServicesAsync demo_platform;
     GetGattServicesForUuidAsync := GetGattServicesForUuidAsync demo_platform;
     GetCharacteristicsAsync := GetCharacteristicsAsync demo_platform;
     GetCharacteristicsForUuidAsync :=
       fun _ _ u =>
         Returns (Success, [ {| characteristic_Uuid := u;
                                CharacteristicProperties := 34;
                                characteristic_handle := u |} ]);
     WriteValueAsync := WriteValueAsync demo_platform;
     ReadValueAsync := ReadValueAsync demo_platform;
     WriteClientCharacteristicConfigurationDescriptorAsync :=
       WriteClientCharacteristicConfigurationDescriptorAsync demo_platform;
     winrt_guid := winrt_guid demo_platform;
     guid_to_string := guid_to_string demo_platform;
     address_to_string := address_to_string demo_platform;
     indeterminate_u64 := indeterminate_u64 demo_platform |}.

(** A platform that hands out a new characteristic object at every
    resolution: the handle of the object is the moment of the call.
    Everything else is as on the example platform. *)
Definition fresh_object_platform : Platform :=
  {| watcher_new := watcher_new demo_platform;
     watcher_Start := watcher_Start demo_platform;
     watcher_Stop := watcher_Stop demo_platform;
     GetDefaultAsync := GetDefaultAsync demo_platform;
     FromBluetoothAddressAsync := FromBluetoothAddressAsync demo_platform;
     GetGattServicesAsync := GetGattServicesAsync demo_platform;
     GetGattServicesForUuidAsync := GetGattServicesForUuidAsync demo_platform;
     GetCharacteristicsAsync := GetCharacteristicsAsync demo_platform;
     GetCharacteristicsForUuidAsync :=
       fun t _ u =>
         Returns (Success, [ {| characteristic_Uuid := u;
                                CharacteristicProperties := 18;
                                characteristic_handle := Z.of_nat t |} ]);
     WriteValueAsync := WriteValueAsync demo_platform;
     ReadValueAsync := ReadValueAsync demo_platform;
     WriteClientCharacteristicConfigurationDescriptorAsync :=
       WriteClientCharacteristicConfigurationDescriptorAsync demo_platform;
     winrt_guid := winrt_guid demo_platform;
     guid_to_string := guid_to_string demo_platform;
     address_to_string := address_to_string demo_platform;
     indeterminate_u64 := indeterminate_u64 demo_platform |}.

(** The object that platform hands out at the subscribe of the examples,
    its third call. *)
Definition subscribed_object : GattCharacteristic :=
  {| characteristic_Uuid := 1; CharacteristicProperties := 18; characteristic_handle := 2 |}.

(** Connect, subscribe, listen, unsubscribe; then the object subscribed
    to changes its value. *)
Definition fresh_object_script : list Stimulus :=
  subscribe_script ++
  [ call "unsubscribeFromCharacteristic" (characteristic_args "a1");
    ValueChangedRaised subscribed_object [Byte.x07] ].

(** The string has no underscore in it. *)
Fixpoint no_underscore (s : string) : bool :=
  match s with
  | EmptyString => true
  | String c rest => negb (Ascii.eqb c "_") && no_underscore rest
  end.

(** The notification table, the registered handlers and the token
    counter are as before. *)
Definition table_frame (w w' : World) : Prop :=
  notification_tokens_ w' = notification_tokens_ w
  /\ value_changed w' = value_changed w
  /\ next_token w' = next_token w.

(** A computation that leaves them as they were, however it ends. *)
Definition keeps_tables {A} (m : M A) : Prop :=
  forall w,
    match m w with
    | Normal _ w' | Thrown w' => table_frame w w'
    | Undefined => True
    end.

(** What holds of the notification bookkeeping in every state the plugin
    can reach: tokens in use are older than the counter, no two handlers
    and no two records share a token, and every record's token is the
    token of a registered handler. *)
Definition records_consistent (w : World) : Prop :=
  (forall r, In r (value_changed w) -> reg_token r < next_token w)
  /\ (forall k t, notification_tokens_ w !! k = Some t -> t < next_token w)
  /\ List.NoDup (map reg_token (value_changed w))
  /\ (forall k1 k2 t,
        notification_tokens_ w !! k1 = Some t ->
        notification_tokens_ w !! k2 = Some t -> k1 = k2)
  /\ (forall k t,
        notification_tokens_ w !! k = Some t ->
        exists r, In r (value_changed w) /\ reg_token r = t).

(** A computation that ends, if it ends, in a world related by [R] to the
    one it started from. *)
Definition ends_in (R : World -> World -> Prop) {A} (m : M A) : Prop :=
  forall w,
    match m w with
    | Normal _ w' | Thrown w' => R w w'
    | Undefined => True
    end.

Definition consistent_step (w w' : World) : Prop :=
  records_consistent w -> records_consistent w'.

(** What one handler forwards of a value change in world [w], and what
    the handlers registered on a characteristic forward together. *)
Definition delivered (w : World) (data : list Byte.byte) (r : Registration) : list HostEvent :=
  if bool_decide (reg_sink r ∈ attached_sinks w)
  then [Notification (default ""%string (sink_channels w !! reg_sink r)) data]
  else [].

Definition notifications_of (w : World) (characteristic : GattCharacteristic)
    (data : list Byte.byte) : list HostEvent :=
  flat_map (delivered w data)
    (List.filter (fun r => same_characteristic (reg_characteristic r) characteristic)
       (value_changed w)).

Definition log_events (l : list HostEvent) (w : World) : World :=
  fold_left (fun w e => log_event e w) l w.

(** ** Numerals at the front of a deviceId *)




(** ** The trace of platform calls *)





(** * Properties *)

(** ** Stepping through a computation *)

Lemma bind_Normal {A B} (m : M A) (k : A -> M B) w a w1 :
  m w = Normal a w1 -> bind m k w = k a w1.
Proof. unfold bind. intros ->. reflexivity. Qed.

Lemma bind_Thrown {A B} (m : M A) (k : A -> M B) w w1 :
  m w = Thrown w1 -> bind m k w = Thrown w1.
Proof. unfold bind. intros ->. reflexivity. Qed.

Lemma platform_call_Returns {A} c (ans : nat -> answer A) w a :
  ans (length (calls w)) = Returns a ->
  platform_call c ans w = Normal a (log_call c w).
Proof. unfold platform_call. intros ->. reflexivity. Qed.

(** Unfolding the monad down to matches on worlds and answers. *)
Ltac unfold_monad :=
  unfold lookup_device, emit, of_answer in *;
  unfold bind, ret, gets, modify, throw, undefined, try_catch in *.

(** ** The device registry: connect, disconnect, lookup *)

(** Once the stream holds anything but white space, the extraction
    stores a value, whatever the target held before. *)
Lemma extract_hex_stores (s : string) (prev1 prev2 : Z) :
  Cpp.skipws s <> EmptyString -> Cpp.extract_hex s prev1 = Cpp.extract_hex s prev2.
Proof.
  unfold Cpp.extract_hex. destruct (Cpp.skipws s); [contradiction | reflexivity].
Qed.

(** C9. For every deviceId string that holds something to parse, the
    address being the one the extraction stores for it: when the platform
    hands back a device, connectToDevice returns true and a lookup right
    after it returns that very device; and disconnectDevice returns true
    and a lookup right after it finds nothing. *)
Theorem connect_lookup_disconnect_lookup (pf : Platform) (args : EncodableMap)
    (s : string) (prev : Z) (w : World) :
  Cpp.skipws s <> EmptyString ->
  find "deviceId" args = Some (EString s) ->
  (forall d,
      FromBluetoothAddressAsync pf (length (calls w)) (Cpp.extract_hex s prev)
        = Returns (Some d) ->
      exists w',
        ConnectToDevice pf args w = Normal true w'
        /\ lookup_device (Cpp.extract_hex s prev) w' = Normal (Some d) w')
  /\ (exists w',
        DisconnectDevice pf args w = Normal true w'
        /\ lookup_device (Cpp.extract_hex s prev) w' = Normal None w').
Proof.
  intros Hs Hid.
  rewrite (extract_hex_stores s prev (indeterminate_u64 pf) Hs).
  change (Cpp.extract_hex s (indeterminate_u64 pf)) with (parse_device_address pf s).
  split.
  - intros d Hd. unfold ConnectToDevice. rewrite Hid.
    unfold_monad. unfold platform_call. cbn [get_string]. unfold ret.
    rewrite Hd.
    destruct (connection_state_sink_ _) eqn:Hsink; cbn in Hsink; rewrite ?Hsink;
      eexists; (split; [reflexivity |]); cbn; f_equal; apply lookup_insert_eq.
  - unfold DisconnectDevice. rewrite Hid.
    unfold_monad. cbn [get_string]. unfold ret.
    destruct (connection_state_sink_ _) eqn:Hsink; cbn in Hsink; rewrite ?Hsink;
      eexists; (split; [reflexivity |]); cbn; f_equal; apply lookup_delete_eq.
Qed.

Lemma connect_lookup_disconnect_lookup_witness :
  (exists w',
      ConnectToDevice demo_platform (device_args "a1") initial_world = Normal true w'
      /\ lookup_device 161 w' = Normal (Some (Device 161)) w')
  /\ (exists w',
        DisconnectDevice demo_platform (device_args "a1") connected_world = Normal true w'
        /\ lookup_device 161 w' = Normal None w').
Proof.
  split.
  - destruct (connect_lookup_disconnect_lookup demo_platform (device_args "a1") "a1" 0
                initial_world ltac:(discriminate) eq_refl) as [Hconnect _].
    exact (Hconnect (Device 161) eq_refl).
  - destruct (connect_lookup_disconnect_lookup demo_platform (device_args "a1") "a1" 0
                connected_world ltac:(discriminate) eq_refl) as [_ Hdisconnect].
    exact Hdisconnect.
Defined.

(** ** Operations on a device that is not in the registry *)

Ltac absent_device H :=
  repeat match goal with
    | |- context [find ?k ?a] =>
        let E := fresh "E" in destruct (find k a) as [[]|] eqn:E
    end;
  cbv beta iota zeta delta [bind ret gets modify throw try_catch get_string lookup_device];
  try reflexivity;
  rewrite (H _ eq_refl); reflexivity.

(** C6. When the deviceId of the command names no entry of
    [connected_devices_], read, write, discoverServices, subscribe and
    unsubscribe all return their failure value and leave the world exactly
    as it was: the trace of platform calls has not grown, so no service
    resolution or other platform call was attempted. *)
Theorem absent_device_fails_without_platform_call (pf : Platform)
    (args : EncodableMap) (w : World) :
  (forall s, find "deviceId" args = Some (EString s) ->
             connected_devices_ w !! parse_device_address pf s = None) ->
  ReadCharacteristic pf args w = Normal ENull w
  /\ WriteCharacteristic pf args w = Normal false w
  /\ DiscoverServices pf args w = Normal [] w
  /\ SubscribeToCharacteristic pf args w = Normal false w
  /\ UnsubscribeFromCharacteristic pf args w = Normal false w.
Proof.
  intros H. repeat split.
  - unfold ReadCharacteristic. absent_device H.
  - unfold WriteCharacteristic. absent_device H.
  - unfold DiscoverServices. absent_device H.
  - unfold SubscribeToCharacteristic. absent_device H.
  - unfold UnsubscribeFromCharacteristic. absent_device H.
Qed.

Lemma absent_device_fails_without_platform_call_witness :
  ReadCharacteristic demo_platform (subscribe_args "b2" "n") connected_world
    = Normal ENull connected_world
  /\ WriteCharacteristic demo_platform (subscribe_args "b2" "n") connected_world
      = Normal false connected_world
  /\ DiscoverServices demo_platform (subscribe_args "b2" "n") connected_world
      = Normal [] connected_world
  /\ SubscribeToCharacteristic demo_platform (subscribe_args "b2" "n") connected_world
      = Normal false connected_world
  /\ UnsubscribeFromCharacteristic demo_platform (subscribe_args "b2" "n") connected_world
      = Normal false connected_world.
Proof.
  apply (absent_device_fails_without_platform_call demo_platform
           (subscribe_args "b2" "n") connected_world).
  intros s Hs. injection Hs as <-. vm_compute. reflexivity.
Defined.

(** ** Reading a characteristic *)

(** The resolution helper never runs into undefined behaviour. *)
Lemma resolve_characteristic_defined pf device su cu w :
  resolve_characteristic pf device su cu w <> Undefined.
Proof.
  unfold resolve_characteristic, platform_call.
  unfold_monad.
  repeat (cbv beta iota;
    match goal with
    | |- context [match ?x with _ => _ end] =>
        lazymatch x with
        | context [match _ with _ => _ end] => fail
        | _ => destruct x; try discriminate
        end
    end).
Qed.

Ltac not_read :=
  left; split; [reflexivity |];
  intros ? (? & ? & ? & ? & ? & ? & ? & ? & ? & ? & ? & ?);
  congruence.

(** C7. readCharacteristic always returns, and what it returns tells
    failure from success: it is the null value exactly when the read did
    not go through (argument missing or ill-typed, device absent, service
    or characteristic not resolved, non-success status, exception), and
    the byte list of the payload when it did.  A successful read of a
    zero-length payload therefore yields the empty byte list, which is
    not the null value. *)
Theorem read_failure_is_null_success_is_bytes (pf : Platform)
    (args : EncodableMap) (w : World) :
  exists v w',
    ReadCharacteristic pf args w = Normal v w'
    /\ ((v = ENull /\ forall data, ~ read_succeeds pf args w data)
        \/ (exists data, v = EBytes data /\ read_succeeds pf args w data)).
Proof.
  unfold ReadCharacteristic.
  destruct (find "deviceId" args) as [[]|] eqn:E1;
  destruct (find "serviceUuid" args) as [[]|] eqn:E2;
  destruct (find "characteristicUuid" args) as [[]|] eqn:E3;
  cbv beta iota zeta delta [bind ret gets modify throw try_catch get_string lookup_device];
  try (do 2 eexists; split; [reflexivity | not_read]).
  destruct (connected_devices_ w !! parse_device_address pf s) as [device|] eqn:Hd;
    [| do 2 eexists; split; [reflexivity | not_read]].
  destruct (resolve_characteristic pf device s0 s1 w) as [[c|] w1 | w1 |] eqn:Hr;
    [ | do 2 eexists; split; [reflexivity | not_read] ..
      | exfalso; exact (resolve_characteristic_defined _ _ _ _ _ Hr) ].
  unfold platform_call.
  destruct (ReadValueAsync pf (length (calls w1)) c) as [[st data]|] eqn:Hread;
    [| do 2 eexists; split; [reflexivity | not_read]].
  destruct st; cbn [is_Success fst snd];
    try (do 2 eexists; split; [reflexivity | not_read]).
  do 2 eexists; split; [reflexivity |].
  right. exists data. split; [reflexivity |].
  exists s, s0, s1, device, c, w1. repeat split; assumption.
Qed.

(** On the example platform every read returns an empty payload: the
    reply is the empty byte list when the device is connected and the
    null value when it is not. *)
Example read_zero_length_payload :
  ReadCharacteristic demo_platform (characteristic_args "a1") connected_world
    = Normal (EBytes [])
        (log_call (Call_ReadValueAsync (Characteristic 1))
           (log_call (Call_GetCharacteristicsForUuidAsync (Service 1) 1)
              (log_call (Call_GetGattServicesForUuidAsync (Device 161) 1)
                 connected_world)))
  /\ ReadCharacteristic demo_platform (characteristic_args "b2") connected_world
      = Normal ENull connected_world.
Proof. split; reflexivity. Qed.

(** ** Service discovery *)

Lemma length_calls_log_call c w :
  length (calls (log_call c w)) = S (length (calls w)).
Proof. cbn. rewrite length_app. cbn. lia. Qed.

(** The loop over the services, when every characteristic enumeration
    comes back with an answer: one entry per service, in order, each built
    from the answer for that service. *)
Lemma discover_loop_returns (pf : Platform) (services : list GattDeviceService) :
  forall (service_list : EncodableList) (w : World),
    (forall i service, services !! i = Some service ->
       exists r, GetCharacteristicsAsync pf (length (calls w) + i) service = Returns r) ->
    exists entries w',
      discover_loop pf services service_list w = Normal (service_list ++ entries) w'
      /\ length entries = length services
      /\ forall i service, services !! i = Some service ->
           exists r,
             GetCharacteristicsAsync pf (length (calls w) + i) service = Returns r
             /\ entries !! i = Some (service_entry pf service r).
Proof.
  induction services as [| service rest IH]; intros service_list w Hreturns.
  - exists [], w. cbn. rewrite app_nil_r. repeat split. intros i service Hi.
    rewrite lookup_nil in Hi. discriminate.
  - destruct (Hreturns 0%nat service eq_refl) as [r0 Hr0].
    rewrite Nat.add_0_r in Hr0.
    cbn [discover_loop].
    rewrite (bind_Normal _ _ _ _ _ (platform_call_Returns _ _ _ _ Hr0)).
    destruct (IH (service_list ++ [service_entry pf service r0])
                 (log_call (Call_GetCharacteristicsAsync service) w))
      as (entries & w' & Hrun & Hlen & Hentries).
    { intros i s Hi. rewrite length_calls_log_call.
      destruct (Hreturns (S i) s Hi) as [r Hr]. exists r.
      rewrite <- Hr. f_equal. lia. }
    exists (service_entry pf service r0 :: entries), w'.
    split; [| split].
    + rewrite Hrun. rewrite <- app_assoc. reflexivity.
    + cbn. rewrite Hlen. reflexivity.
    + intros [| i] s Hi.
      * cbn in Hi. injection Hi as <-. exists r0.
        rewrite Nat.add_0_r. split; [assumption | reflexivity].
      * cbn in Hi. destruct (Hentries i s Hi) as (r & Hr & He).
        rewrite length_calls_log_call in Hr.
        exists r. split; [| exact He].
        rewrite <- Hr. f_equal. lia.
Qed.

(** discoverServices on a connected device whose service enumeration
    succeeds, when each characteristic enumeration comes back with a
    status: the reply lists every service, in order, each as a map with
    its own uuid and a list of characteristics; that list holds one map
    per characteristic reported, with uuid and capability names, where
    the enumeration reported [Success], and is empty where it reported
    a failure, and the services after such a one are enumerated and
    listed all the same. *)
Theorem discover_services_keeps_siblings (pf : Platform) (args : EncodableMap)
    (s : string) (w : World) (d : BluetoothLEDevice) (services : list GattDeviceService) :
  find "deviceId" args = Some (EString s) ->
  connected_devices_ w !! parse_device_address pf s = Some d ->
  GetGattServicesAsync pf (length (calls w)) d = Returns (Success, services) ->
  (forall i service, services !! i = Some service ->
     exists r, GetCharacteristicsAsync pf (S (length (calls w)) + i) service = Returns r) ->
  exists service_list w',
    DiscoverServices pf args w = Normal service_list w'
    /\ length service_list = length services
    /\ forall i service, services !! i = Some service ->
         exists status characteristics entry,
           GetCharacteristicsAsync pf (S (length (calls w)) + i) service
             = Returns (status, characteristics)
           /\ service_list !! i = Some (EMap entry)
           /\ find "uuid" entry = Some (EString (guid_to_string pf (service_Uuid service)))
           /\ find "characteristics" entry =
                Some (EList
                  (if is_Success status
                   then map (fun c =>
                          EMap [ (EString "properties",
                                  EList (properties_list (CharacteristicProperties c)));
                                 (EString "uuid",
                                  EString (guid_to_string pf (characteristic_Uuid c))) ])
                          characteristics
                   else [])).
Proof.
  intros Hid Hd Hservices Hreturns.
  destruct (discover_loop_returns pf services []
              (log_call (Call_GetGattServicesAsync d) w))
    as (entries & w' & Hrun & Hlen & Hentries).
  { intros i service Hi. rewrite length_calls_log_call. eauto. }
  exists entries, w'. split; [| split].
  - unfold DiscoverServices. rewrite Hid.
    cbv beta iota zeta delta [bind ret gets throw try_catch get_string lookup_device].
    rewrite Hd. unfold platform_call at 1. rewrite Hservices.
    cbn [fst snd is_Success]. rewrite Hrun. reflexivity.
  - exact Hlen.
  - intros i service Hi.
    destruct (Hentries i service Hi) as ([status characteristics] & Hr & He).
    rewrite length_calls_log_call in Hr.
    exists status, characteristics. eexists.
    split; [exact Hr |]. split; [exact He |]. split; reflexivity.
Qed.

Lemma discover_services_keeps_siblings_witness :
  exists service_list w',
    DiscoverServices flaky_platform (device_args "a1") connected_world
      = Normal service_list w'
    /\ length service_list = 3%nat
    /\ forall i service, [Service 1; Service 2; Service 3] !! i = Some service ->
         exists status characteristics entry,
           GetCharacteristicsAsync flaky_platform (S 0 + i) service
             = Returns (status, characteristics)
           /\ service_list !! i = Some (EMap entry)
           /\ find "uuid" entry
              = Some (EString (guid_to_string flaky_platform (service_Uuid service)))
           /\ find "characteristics" entry =
                Some (EList
                  (if is_Success status
                   then map (fun c =>
                          EMap [ (EString "properties",
                                  EList (properties_list (CharacteristicProperties c)));
                                 (EString "uuid",
                                  EString (guid_to_string flaky_platform
                                             (characteristic_Uuid c))) ])
                          characteristics
                   else [])).
Proof.
  apply (discover_services_keeps_siblings flaky_platform (device_args "a1") "a1"
           connected_world (Device 161) [Service 1; Service 2; Service 3]).
  - reflexivity.
  - vm_compute. reflexivity.
  - reflexivity.
  - intros i service _. cbn.
    destruct (service_Uuid service =? 2); eexists; reflexivity.
Defined.

(** On the platform whose second service cannot list its characteristics,
    the reply still has the three services, the second one empty. *)
Example discover_services_partial_topology :
  replies (DiscoverServices flaky_platform (device_args "a1") connected_world)
  = Some
      [ EMap [ (EString "characteristics",
                EList [ EMap [ (EString "properties",
                                EList [EString "read"; EString "notify"]);
                               (EString "uuid", EString "one") ] ]);
               (EString "uuid", EString "one") ];
        EMap [ (EString "characteristics", EList []);
               (EString "uuid", EString "two") ];
        EMap [ (EString "characteristics",
                EList [ EMap [ (EString "properties",
                                EList [EString "read"; EString "notify"]);
                               (EString "uuid", EString "other") ] ]);
               (EString "uuid", EString "other") ] ].
Proof. reflexivity. Qed.

(** ** Parsing the deviceId *)

Example extract_hex_numeral : Cpp.extract_hex "1A2b" 77 = 6699.
Proof. reflexivity. Qed.

Example extract_hex_prefixed : Cpp.extract_hex " 0x1f" 77 = 31.
Proof. reflexivity. Qed.

Example extract_hex_no_digit : Cpp.extract_hex "zz" 77 = 0.
Proof. reflexivity. Qed.

(** At the end of input the sentry fails and the target keeps what it held. *)
Example extract_hex_empty : Cpp.extract_hex "" 77 = 77.
Proof. reflexivity. Qed.



(** ** The notification table *)

(** Resolving a characteristic only talks to the platform: it ends
    normally or by an exception, and changes nothing but the trace. *)
Lemma resolve_characteristic_frame pf device su cu w :
  match resolve_characteristic pf device su cu w with
  | Normal _ w1 | Thrown w1 => same_tables w w1
  | Undefined => False
  end.
Proof.
  unfold resolve_characteristic, platform_call.
  unfold_monad.
  repeat (cbv beta iota;
    match goal with
    | |- context [match ?x with _ => _ end] =>
        lazymatch x with
        | context [match _ with _ => _ end] => fail
        | _ => destruct x
        end
    end);
  repeat split.
Qed.

Lemma resolve_characteristic_Normal pf device su cu w r w1 :
  resolve_characteristic pf device su cu w = Normal r w1 -> same_tables w w1.
Proof.
  intros H. pose proof (resolve_characteristic_frame pf device su cu w) as F.
  rewrite H in F. exact F.
Qed.

Lemma resolve_characteristic_Thrown pf device su cu w w1 :
  resolve_characteristic pf device su cu w = Thrown w1 -> same_tables w w1.
Proof.
  intros H. pose proof (resolve_characteristic_frame pf device su cu w) as F.
  rewrite H in F. exact F.
Qed.

(** C1, as the code has it. A successful subscribe stores the token it
    was given under the key built from its three strings, overwriting
    whatever token the table held there, so the table keeps one token per
    key; and it adds its handler to the registered ones without detaching
    any: every handler registered before is still registered after. *)
Theorem subscribe_overwrites_token_keeps_handlers (pf : Platform)
    (args : EncodableMap) (w w' : World) :
  SubscribeToCharacteristic pf args w = Normal true w' ->
  exists id service_uuid char_uuid characteristic,
    find "deviceId" args = Some (EString id)
    /\ find "serviceUuid" args = Some (EString service_uuid)
    /\ find "characteristicUuid" args = Some (EString char_uuid)
    /\ notification_tokens_ w' =
         <[subscription_key id service_uuid char_uuid := next_token w]>
           (notification_tokens_ w)
    /\ value_changed w' =
         value_changed w ++
           [{| reg_characteristic := characteristic;
               reg_token := next_token w;
               reg_sink := length (sink_channels w) |}].
Proof.
  unfold SubscribeToCharacteristic.
  destruct (find "deviceId" args) as [[]|] eqn:E1;
  destruct (find "serviceUuid" args) as [[]|] eqn:E2;
  destruct (find "characteristicUuid" args) as [[]|] eqn:E3;
  destruct (find "notificationChannel" args) as [[]|] eqn:E4;
  cbv beta iota zeta delta [bind ret gets modify throw try_catch get_string lookup_device];
  try discriminate.
  destruct (connected_devices_ w !! parse_device_address pf s) as [device|];
    [| discriminate].
  destruct (resolve_characteristic pf device s0 s1 w) as [[c|] w1 | w1 |] eqn:Hr;
    try discriminate.
  apply resolve_characteristic_Normal in Hr.
  destruct Hr as (_ & _ & Htok & _ & _ & _ & _ & Hcell & Hvc & Hnext & _).
  destruct (has_flag _ _); cbn [negb]; [| discriminate].
  unfold install_stream_handler, platform_call.
  cbn [calls set_streams].
  destruct (WriteClientCharacteristicConfigurationDescriptorAsync pf _ c CccdNotify)
    as [[]|]; cbn [is_Success negb]; try discriminate.
  unfold ValueChanged_add. intros H. injection H as <-.
  exists s, s0, s1, c. cbn. rewrite Htok, Hcell, Hvc, Hnext. repeat split.
Qed.

Lemma subscribe_overwrites_token_keeps_handlers_witness :
  exists id service_uuid char_uuid characteristic,
    find "deviceId" (subscribe_args "a1" "n1") = Some (EString id)
    /\ find "serviceUuid" (subscribe_args "a1" "n1") = Some (EString service_uuid)
    /\ find "characteristicUuid" (subscribe_args "a1" "n1") = Some (EString char_uuid)
    /\ notification_tokens_ resubscribed_world =
         <[subscription_key id service_uuid char_uuid := next_token subscribed_world]>
           (notification_tokens_ subscribed_world)
    /\ value_changed resubscribed_world =
         value_changed subscribed_world ++
           [{| reg_characteristic := characteristic;
               reg_token := next_token subscribed_world;
               reg_sink := length (sink_channels subscribed_world) |}].
Proof.
  apply (subscribe_overwrites_token_keeps_handlers demo_platform
           (subscribe_args "a1" "n1") subscribed_world resubscribed_world).
  vm_compute. reflexivity.
Defined.

(** Subscribing twice to one key, on one channel: both calls succeed, the
    table holds the second token alone, both handlers are registered on
    the characteristic, and one change of its value reaches the channel
    twice. *)
Lemma second_subscribe_leaves_two_handlers :
  replies (run demo_platform resubscribe_script initial_world)
  = Some [ResultSuccess (EBool true); ResultSuccess (EBool true); ResultSuccess (EBool true)]
  /\ tokens_after (run demo_platform resubscribe_script initial_world)
     = [("a1_s_c"%string, 2)]
  /\ handlers_after (run demo_platform resubscribe_script initial_world)
     = [ {| reg_characteristic := Characteristic 1; reg_token := 1; reg_sink := 0%nat |};
         {| reg_characteristic := Characteristic 1; reg_token := 2; reg_sink := 1%nat |} ]
  /\ events_after (run demo_platform resubscribe_script initial_world)
     = [ Notification "n1" [Byte.x01; Byte.x02; Byte.x03];
         Notification "n1" [Byte.x01; Byte.x02; Byte.x03] ].
Proof. vm_compute. repeat split; reflexivity. Qed.

(** What unsubscribe does once the device is found and the
    characteristic resolved, by the answer to the disabling write. *)
Lemma unsubscribe_after_resolution (pf : Platform) (args : EncodableMap)
    (id su cu : string) (w w1 : World) (d : BluetoothLEDevice) (c : GattCharacteristic) :
  find "deviceId" args = Some (EString id) ->
  find "serviceUuid" args = Some (EString su) ->
  find "characteristicUuid" args = Some (EString cu) ->
  connected_devices_ w !! parse_device_address pf id = Some d ->
  resolve_characteristic pf d su cu w = Normal (Some c) w1 ->
  match WriteClientCharacteristicConfigurationDescriptorAsync pf (length (calls w1)) c CccdNone with
  | Returns status =>
      exists w',
        UnsubscribeFromCharacteristic pf args w = Normal (is_Success status) w'
        /\ notification_tokens_ w' =
             delete (subscription_key id su cu) (notification_tokens_ w)
        /\ value_changed w' =
             match notification_tokens_ w !! subscription_key id su cu with
             | Some token =>
                 List.filter (fun r => negb (registered_as c token r)) (value_changed w)
             | None => value_changed w
             end
  | Raises =>
      exists w',
        UnsubscribeFromCharacteristic pf args w = Normal false w'
        /\ notification_tokens_ w' = notification_tokens_ w
        /\ value_changed w' = value_changed w
  end.
Proof.
  intros E1 E2 E3 Hd Hr.
  pose proof (resolve_characteristic_Normal _ _ _ _ _ _ _ Hr)
    as (_ & _ & Htok & _ & _ & _ & _ & _ & Hvc & _ & _).
  unfold UnsubscribeFromCharacteristic. rewrite E1, E2, E3.
  cbv beta iota zeta delta [bind ret gets modify throw try_catch get_string lookup_device].
  rewrite Hd, Hr. unfold platform_call.
  destruct (WriteClientCharacteristicConfigurationDescriptorAsync pf _ c CccdNone)
    as [status|].
  - cbn [notification_tokens_ log_call]. rewrite Htok.
    destruct (notification_tokens_ w !! subscription_key id su cu) as [token|] eqn:Hk.
    + unfold ValueChanged_remove, modify. eexists. split; [reflexivity |].
      cbn. rewrite Htok, Hvc. split; reflexivity.
    + eexists. split; [reflexivity |]. cbn. rewrite Hvc. split; [| reflexivity].
      rewrite delete_id by exact Hk. exact Htok.
  - eexists. split; [reflexivity |]. cbn. split; assumption.
Qed.

(** What unsubscribe does when the resolution does not give a
    characteristic: it returns false and leaves the tables alone. *)
Lemma unsubscribe_without_resolution (pf : Platform) (args : EncodableMap)
    (id su cu : string) (w w1 : World) (d : BluetoothLEDevice) :
  find "deviceId" args = Some (EString id) ->
  find "serviceUuid" args = Some (EString su) ->
  find "characteristicUuid" args = Some (EString cu) ->
  connected_devices_ w !! parse_device_address pf id = Some d ->
  resolve_characteristic pf d su cu w = Normal None w1
  \/ resolve_characteristic pf d su cu w = Thrown w1 ->
  UnsubscribeFromCharacteristic pf args w = Normal false w1
  /\ notification_tokens_ w1 = notification_tokens_ w
  /\ value_changed w1 = value_changed w.
Proof.
  intros E1 E2 E3 Hd Hr.
  assert (same_tables w w1) as (_ & _ & Htok & _ & _ & _ & _ & _ & Hvc & _ & _).
  { destruct Hr as [Hr | Hr];
      eauto using resolve_characteristic_Normal, resolve_characteristic_Thrown. }
  unfold UnsubscribeFromCharacteristic. rewrite E1, E2, E3.
  cbv beta iota zeta delta [bind ret gets modify throw try_catch get_string lookup_device].
  rewrite Hd. destruct Hr as [-> | ->]; repeat split; assumption.
Qed.

Lemma unsubscribe_absent_device (pf : Platform) (args : EncodableMap)
    (id : string) (w : World) :
  find "deviceId" args = Some (EString id) ->
  connected_devices_ w !! parse_device_address pf id = None ->
  UnsubscribeFromCharacteristic pf args w = Normal false w.
Proof.
  intros E Hd.
  assert (forall s, find "deviceId" args = Some (EString s) ->
                    connected_devices_ w !! parse_device_address pf s = None) as H.
  { intros s Hs. rewrite E in Hs. injection Hs as <-. exact Hd. }
  clear E Hd. unfold UnsubscribeFromCharacteristic. absent_device H.
Qed.

(** What revoking a token on a characteristic leaves registered: every
    handler but those registered on that characteristic under that
    token. *)
Lemma revoked_handlers (c : GattCharacteristic) (token : event_token)
    (l : list Registration) (r : Registration) :
  In r (List.filter (fun r => negb (registered_as c token r)) l)
  <-> In r l /\ ~ (same_characteristic (reg_characteristic r) c = true
                   /\ reg_token r = token).
Proof.
  rewrite filter_In. unfold registered_as.
  split; intros [Hin H]; (split; [exact Hin |]).
  - intros [Hc Ht]. rewrite Hc, Ht, Z.eqb_refl in H. discriminate.
  - destruct (same_characteristic (reg_characteristic r) c) eqn:Hc; [| reflexivity].
    destruct (reg_token r =? token) eqn:Ht; [| reflexivity].
    exfalso. apply H. split; [reflexivity | apply Z.eqb_eq, Ht].
Qed.




(** For comparison, a disabling write that reports a failure status: the
    call replies false as well, but the record is gone, the handler
    detached, and the change of value reaches nobody. *)
Example unsubscribe_cleans_up_on_failure_status :
  replies (run cccd_none_fails_platform unsubscribe_script initial_world)
  = Some [ResultSuccess (EBool true); ResultSuccess (EBool true); ResultSuccess (EBool false)]
  /\ tokens_after (run cccd_none_fails_platform unsubscribe_script initial_world) = []
  /\ handlers_after (run cccd_none_fails_platform unsubscribe_script initial_world) = []
  /\ events_after (run cccd_none_fails_platform unsubscribe_script initial_world) = [].
Proof. vm_compute. repeat split; reflexivity. Qed.

(** Where the platform hands out a new characteristic object at every
    resolution, the unsubscribe revokes the token on an object that
    holds no handler: it replies true and erases the record, and the
    handler registered at the subscribe stays where it is and goes on
    forwarding. *)
Example unsubscribe_on_another_object_keeps_the_handler :
  replies (run fresh_object_platform fresh_object_script initial_world)
  = Some [ResultSuccess (EBool true); ResultSuccess (EBool true); ResultSuccess (EBool true)]
  /\ tokens_after (run fresh_object_platform fresh_object_script initial_world) = []
  /\ handlers_after (run fresh_object_platform fresh_object_script initial_world)
     = [ {| reg_characteristic := subscribed_object; reg_token := 1; reg_sink := 0%nat |} ]
  /\ events_after (run fresh_object_platform fresh_object_script initial_world)
     = [ Notification "n1" [Byte.x07] ].
Proof. vm_compute. repeat split; reflexivity. Qed.

(** ** Disconnecting and disposing *)

(** The teardown always completes: it empties the registry and leaves
    the notification table and the registered handlers as they were. *)
Lemma teardown_keeps_subscriptions (pf : Platform) (w : World) :
  exists w',
    teardown pf w = Normal tt w'
    /\ connected_devices_ w' = ∅
    /\ notification_tokens_ w' = notification_tokens_ w
    /\ value_changed w' = value_changed w.
Proof.
  unfold teardown, watcher_stop, platform_call.
  cbv beta iota zeta delta [bind ret gets modify throw try_catch].
  destruct (watcher_ w) as [st|] eqn:Hw; [| eexists; repeat split].
  rewrite Hw.
  destruct (watcher_Stop pf (length (calls w))); eexists; repeat split.
Qed.

(** C4, as the code has it. A record is erased from the notification
    table by an unsubscribe that finds the device, resolves the
    characteristic and gets a status back from the disabling write; the
    same unsubscribe revokes the record's token on the characteristic it
    has just resolved, which detaches a handler registered under the
    token on that very characteristic and no other handler.
    disconnectDevice, the dispose command and the destructor clear device
    entries only: they always complete, and the notification table and
    the handlers registered with the platform are after them what they
    were before. *)
Theorem only_unsubscribe_destroys_records (pf : Platform) (args : EncodableMap)
    (arguments : option EncodableValue) (id su cu : string) (w w1 : World)
    (d : BluetoothLEDevice) (c : GattCharacteristic) (status : GattCommunicationStatus)
    (token : event_token) :
  find "deviceId" args = Some (EString id) ->
  find "serviceUuid" args = Some (EString su) ->
  find "characteristicUuid" args = Some (EString cu) ->
  connected_devices_ w !! parse_device_address pf id = Some d ->
  resolve_characteristic pf d su cu w = Normal (Some c) w1 ->
  WriteClientCharacteristicConfigurationDescriptorAsync pf (length (calls w1)) c CccdNone
    = Returns status ->
  notification_tokens_ w !! subscription_key id su cu = Some token ->
  (exists w',
      UnsubscribeFromCharacteristic pf args w = Normal (is_Success status) w'
      /\ notification_tokens_ w' !! subscription_key id su cu = None
      /\ value_changed w' =
           List.filter (fun r => negb (registered_as c token r)) (value_changed w)
      /\ (forall r,
            In r (value_changed w')
            <-> In r (value_changed w)
                /\ ~ (same_characteristic (reg_characteristic r) c = true
                      /\ reg_token r = token)))
  /\ (exists w',
        DisconnectDevice pf args w = Normal true w'
        /\ connected_devices_ w' !! parse_device_address pf id = None
        /\ notification_tokens_ w' = notification_tokens_ w
        /\ value_changed w' = value_changed w)
  /\ (exists w',
        HandleMethodCall pf "dispose" arguments w = Normal (ResultSuccess (EBool true)) w'
        /\ connected_devices_ w' = ∅
        /\ notification_tokens_ w' = notification_tokens_ w
        /\ value_changed w' = value_changed w)
  /\ (exists w',
        destructor pf w = Normal tt w'
        /\ connected_devices_ w' = ∅
        /\ notification_tokens_ w' = notification_tokens_ w
        /\ value_changed w' = value_changed w).
Proof.
  intros E1 E2 E3 Hd Hr Hwrite Hk. split; [| split; [| split]].
  - pose proof (unsubscribe_after_resolution pf args id su cu w w1 d c E1 E2 E3 Hd Hr) as H.
    rewrite Hwrite, Hk in H. destruct H as (w' & Hrun & Htok & Hvc).
    exists w'. split; [exact Hrun | split; [| split; [exact Hvc |]]].
    + rewrite Htok. apply lookup_delete_eq.
    + intros r. rewrite Hvc. apply revoked_handlers.
  - unfold DisconnectDevice. rewrite E1.
    cbv beta iota zeta delta [bind ret gets modify throw try_catch get_string emit].
    cbn [connection_state_sink_ set_connected_devices].
    destruct (connection_state_sink_ w); eexists; (split; [reflexivity |]); cbn;
      repeat split; apply lookup_delete_eq.
  - destruct (teardown_keeps_subscriptions pf w) as (w' & Hrun & H).
    exists w'. split; [| exact H].
    change (HandleMethodCall pf "dispose" arguments w)
      with (bind (teardown pf) (fun _ => ret (ResultSuccess (EBool true))) w).
    rewrite (bind_Normal _ _ _ _ _ Hrun). reflexivity.
  - destruct (teardown_keeps_subscriptions pf w) as (w' & Hrun & Hreg & Htok & Hvc).
    exists w'. repeat split; assumption.
Qed.

Lemma only_unsubscribe_destroys_records_witness :
  (exists w',
      UnsubscribeFromCharacteristic demo_platform (characteristic_args "a1") subscribed_world
        = Normal true w'
      /\ notification_tokens_ w' !! "a1_s_c"%string = None
      /\ value_changed w' =
           List.filter (fun r => negb (registered_as (Characteristic 1) 1 r))
             (value_changed subscribed_world)
      /\ (forall r,
            In r (value_changed w')
            <-> In r (value_changed subscribed_world)
                /\ ~ (same_characteristic (reg_characteristic r) (Characteristic 1) = true
                      /\ reg_token r = 1)))
  /\ (exists w',
        DisconnectDevice demo_platform (characteristic_args "a1") subscribed_world
          = Normal true w'
        /\ connected_devices_ w' !! 161 = None
        /\ notification_tokens_ w' = notification_tokens_ subscribed_world
        /\ value_changed w' = value_changed subscribed_world)
  /\ (exists w',
        HandleMethodCall demo_platform "dispose" None subscribed_world
          = Normal (ResultSuccess (EBool true)) w'
        /\ connected_devices_ w' = ∅
        /\ notification_tokens_ w' = notification_tokens_ subscribed_world
        /\ value_changed w' = value_changed subscribed_world)
  /\ (exists w',
        destructor demo_platform subscribed_world = Normal tt w'
        /\ connected_devices_ w' = ∅
        /\ notification_tokens_ w' = notification_tokens_ subscribed_world
        /\ value_changed w' = value_changed subscribed_world).
Proof.
  exact (only_unsubscribe_destroys_records demo_platform (characteristic_args "a1") None
           "a1" "s" "c" subscribed_world resolved_world (Device 161) (Characteristic 1)
           Success 1 eq_refl eq_refl eq_refl eq_refl eq_refl eq_refl eq_refl).
Defined.

(** A subscription outlives the disconnect of its device, and it outlives
    dispose: after either the record is still in the table, the handler
    still registered, and a change of the characteristic still reaches
    the channel. *)
Lemma subscription_survives_disconnect_and_dispose :
  tokens_after (run demo_platform disconnect_script initial_world) = [("a1_s_c"%string, 1)]
  /\ handlers_after (run demo_platform disconnect_script initial_world)
     = [ {| reg_characteristic := Characteristic 1; reg_token := 1; reg_sink := 0%nat |} ]
  /\ events_after (run demo_platform disconnect_script initial_world)
     = [ Notification "n1" [Byte.x07] ]
  /\ tokens_after (run demo_platform dispose_script initial_world) = [("a1_s_c"%string, 1)]
  /\ handlers_after (run demo_platform dispose_script initial_world)
     = [ {| reg_characteristic := Characteristic 1; reg_token := 1; reg_sink := 0%nat |} ]
  /\ events_after (run demo_platform dispose_script initial_world)
     = [ Notification "n1" [Byte.x07] ].
Proof. vm_compute. repeat split; reflexivity. Qed.

(** ** What leaves the scan alone *)

Lemma scan_frame_refl w : scan_frame w w.
Proof. split; reflexivity. Qed.

Lemma scan_frame_trans w1 w2 w3 : scan_frame w1 w2 -> scan_frame w2 w3 -> scan_frame w1 w3.
Proof. intros [H1 H2] [H3 H4]. split; congruence. Qed.

Lemma keeps_scan_ret {A} (a : A) : keeps_scan (ret a).
Proof. intros w. apply scan_frame_refl. Qed.

Lemma keeps_scan_throw {A} : keeps_scan (@throw A).
Proof. intros w. apply scan_frame_refl. Qed.

Lemma keeps_scan_gets {A} (f : World -> A) : keeps_scan (gets f).
Proof. intros w. apply scan_frame_refl. Qed.

Lemma keeps_scan_bind {A B} (m : M A) (k : A -> M B) :
  keeps_scan m -> (forall a, keeps_scan (k a)) -> keeps_scan (bind m k).
Proof.
  intros Hm Hk w. unfold bind. specialize (Hm w).
  destruct (m w) as [a w1 | w1 |]; try assumption.
  specialize (Hk a w1). destruct (k a w1); try assumption;
    eapply scan_frame_trans; eassumption.
Qed.

Lemma keeps_scan_try_catch {A} (body handler : M A) :
  keeps_scan body -> keeps_scan handler -> keeps_scan (try_catch body handler).
Proof.
  intros Hb Hh w. unfold try_catch. specialize (Hb w).
  destruct (body w) as [a w1 | w1 |]; try assumption.
  specialize (Hh w1). destruct (handler w1); try assumption;
    eapply scan_frame_trans; eassumption.
Qed.

Lemma keeps_scan_modify (f : World -> World) :
  (forall w, scan_frame w (f w)) -> keeps_scan (modify f).
Proof. intros H w. apply H. Qed.

Lemma keeps_scan_platform_call {A} c (ans : nat -> answer A) :
  keeps_scan (platform_call c ans).
Proof.
  intros w. unfold platform_call. destruct (ans _); split; reflexivity.
Qed.

Lemma keeps_scan_of_answer {A} (a : answer A) : keeps_scan (of_answer a).
Proof. destruct a; [apply keeps_scan_ret | apply keeps_scan_throw]. Qed.

Lemma keeps_scan_emit (e : HostEvent) : is_scan_event e = false -> keeps_scan (emit e).
Proof.
  intros He w. split; [reflexivity |].
  cbn. unfold scan_events. rewrite List.filter_app. cbn. rewrite He. apply app_nil_r.
Qed.

Lemma keeps_scan_get_string v : keeps_scan (get_string v).
Proof. destruct v; first [apply keeps_scan_ret | apply keeps_scan_throw]. Qed.

Lemma keeps_scan_get_bool v : keeps_scan (get_bool v).
Proof. destruct v; first [apply keeps_scan_ret | apply keeps_scan_throw]. Qed.

Lemma keeps_scan_get_bytes v : keeps_scan (get_bytes v).
Proof. destruct v; first [apply keeps_scan_ret | apply keeps_scan_throw]. Qed.

Lemma keeps_scan_get_map v : keeps_scan (get_map v).
Proof. destruct v; first [apply keeps_scan_ret | apply keeps_scan_throw]. Qed.

(** Taking a computation apart down to the steps above. *)
Ltac keeps_scan_step :=
  first
    [ apply keeps_scan_ret | apply keeps_scan_throw | apply keeps_scan_gets
    | apply keeps_scan_platform_call | apply keeps_scan_of_answer
    | apply keeps_scan_get_string | apply keeps_scan_get_bool
    | apply keeps_scan_get_bytes | apply keeps_scan_get_map
    | apply keeps_scan_emit; reflexivity
    | apply keeps_scan_modify; intros ?; split; reflexivity
    | apply keeps_scan_try_catch
    | apply keeps_scan_bind; [| intros ?]
    | match goal with
      | |- keeps_scan (match ?x with _ => _ end) => destruct x
      | |- keeps_scan (if ?x then _ else _) => destruct x
      | |- keeps_scan (let _ := _ in _) => cbv zeta
      end ].

Ltac keeps_scan_auto := repeat keeps_scan_step.

Lemma keeps_scan_resolve_characteristic pf device su cu :
  keeps_scan (resolve_characteristic pf device su cu).
Proof. unfold resolve_characteristic. keeps_scan_auto. Qed.

Lemma keeps_scan_discover_loop pf services :
  forall service_list, keeps_scan (discover_loop pf services service_list).
Proof.
  induction services as [| service rest IH]; intros service_list; cbn [discover_loop].
  - apply keeps_scan_ret.
  - apply keeps_scan_bind; [apply keeps_scan_platform_call | intros r; apply IH].
Qed.

Lemma keeps_scan_for_each {A} (f : A -> M unit) (l : list A) :
  (forall x, keeps_scan (f x)) -> keeps_scan (for_each f l).
Proof.
  intros Hf. induction l as [| x rest IH]; cbn [for_each].
  - apply keeps_scan_ret.
  - apply keeps_scan_bind; [apply Hf | intros _; exact IH].
Qed.

Lemma keeps_scan_completed {A} (operation : M A) encode code message :
  keeps_scan operation -> keeps_scan (completed operation encode code message).
Proof.
  intros H w. unfold completed. specialize (H w). destruct (operation w); assumption.
Qed.

Lemma keeps_scan_operations pf args :
  keeps_scan (IsBluetoothAvailable pf)
  /\ keeps_scan (ConnectToDevice pf args)
  /\ keeps_scan (DisconnectDevice pf args)
  /\ keeps_scan (DiscoverServices pf args)
  /\ keeps_scan (WriteCharacteristic pf args)
  /\ keeps_scan (ReadCharacteristic pf args)
  /\ keeps_scan (SubscribeToCharacteristic pf args)
  /\ keeps_scan (UnsubscribeFromCharacteristic pf args).
Proof.
  repeat split.
  - unfold IsBluetoothAvailable. keeps_scan_auto.
  - unfold ConnectToDevice. keeps_scan_auto.
  - unfold DisconnectDevice. keeps_scan_auto.
  - unfold DiscoverServices, lookup_device. keeps_scan_auto.
    apply keeps_scan_discover_loop.
  - unfold WriteCharacteristic, lookup_device. keeps_scan_auto;
      apply keeps_scan_resolve_characteristic.
  - unfold ReadCharacteristic, lookup_device. keeps_scan_auto;
      apply keeps_scan_resolve_characteristic.
  - unfold SubscribeToCharacteristic, lookup_device. keeps_scan_auto;
      try apply keeps_scan_resolve_characteristic.
    all: intros w; split; reflexivity.
  - unfold UnsubscribeFromCharacteristic, lookup_device. keeps_scan_auto;
      try apply keeps_scan_resolve_characteristic.
    all: intros w; split; reflexivity.
Qed.

Lemma keeps_scan_with_args_map arguments (k : EncodableMap -> M MethodResult) :
  (forall args_map, keeps_scan (k args_map)) -> keeps_scan (with_args_map arguments k).
Proof.
  intros Hk. unfold with_args_map. destruct arguments as [v|].
  - apply keeps_scan_bind; [apply keeps_scan_get_map | exact Hk].
  - apply keeps_scan_ret.
Qed.

(** Every method call but initialize, startScan, stopScan and dispose
    leaves the scan alone. *)
Lemma keeps_scan_HandleMethodCall pf method_name arguments :
  scan_command method_name = false ->
  keeps_scan (HandleMethodCall pf method_name arguments).
Proof.
  intros Hm. unfold scan_command in Hm. apply bool_decide_eq_false_1 in Hm.
  unfold HandleMethodCall.
  repeat match goal with
    | |- keeps_scan (if String.eqb method_name ?m then _ else _) =>
        destruct (String.eqb_spec method_name m) as [-> | _]
    end;
    try (exfalso; apply Hm; set_solver);
    try apply keeps_scan_ret;
    try (apply keeps_scan_completed; apply (keeps_scan_operations pf []));
    apply keeps_scan_with_args_map; intros args_map; apply keeps_scan_completed;
    apply (keeps_scan_operations pf args_map).
Qed.

Lemma keeps_scan_deliver pf s :
  leaves_scan_alone s = true -> keeps_scan (deliver pf s).
Proof.
  destruct s as [method_name arguments | channel_name | channel_name
                | address local_name rssi service_uuids | | characteristic data | ms];
    cbn [leaves_scan_alone deliver]; intros Hs; try discriminate.
  - apply keeps_scan_bind; [| intros r; apply keeps_scan_ret].
    apply keeps_scan_HandleMethodCall. destruct (scan_command method_name); [discriminate | reflexivity].
  - apply keeps_scan_bind; [| intros r; apply keeps_scan_ret].
    unfold on_stream. apply keeps_scan_modify. intros w.
    destruct (stream_handlers w !! channel_name); [split; reflexivity |].
    destruct (String.eqb _ _); [split; reflexivity |].
    destruct (String.eqb _ _); split; reflexivity.
  - apply keeps_scan_bind; [| intros r; apply keeps_scan_ret].
    unfold on_stream. apply keeps_scan_modify. intros w.
    destruct (stream_handlers w !! channel_name); [split; reflexivity |].
    destruct (String.eqb _ _); [split; reflexivity |].
    destruct (String.eqb _ _); split; reflexivity.
  - apply keeps_scan_bind; [| intros r; apply keeps_scan_ret].
    unfold on_watcher_received. keeps_scan_auto.
  - apply keeps_scan_bind; [| intros r; apply keeps_scan_ret].
    unfold raise_value_changed. apply keeps_scan_bind; [apply keeps_scan_gets |].
    intros handlers. apply keeps_scan_for_each. intros r.
    unfold value_changed_handler. keeps_scan_auto.
  - apply keeps_scan_ret.
Qed.

(** A run of stimuli that leave the scan alone leaves it alone. *)
Lemma keeps_scan_run pf (l : list Stimulus) :
  forallb leaves_scan_alone l = true -> keeps_scan (run pf l).
Proof.
  induction l as [| s rest IH]; cbn [forallb run]; intros Hl.
  - apply keeps_scan_ret.
  - apply andb_prop in Hl. destruct Hl as [Hs Hrest].
    apply keeps_scan_bind; [apply keeps_scan_deliver; exact Hs | intros r].
    apply keeps_scan_bind; [apply IH; exact Hrest | intros rs; apply keeps_scan_ret].
Qed.

(** ** Scanning *)

(** C2, as the code has it. On an initialised watcher whose Start and
    Stop do not throw, startScan with a timeout that is absent or any
    32-bit integer returns true, leaves the watcher started and sends
    scanning=true, and does so identically for every such timeout: the
    value is read and then ignored, and nothing is set up to run later.
    Whatever happens afterwards short of another scan command or the
    platform stopping the watcher by itself (time passing, advertisements
    arriving, other commands), the watcher is still started and no
    further scan-state event has been sent. *)
Theorem start_scan_schedules_no_stop (pf : Platform) (w : World)
    (st : BluetoothLEAdvertisementWatcherStatus) :
  watcher_ w = Some st ->
  (forall t, watcher_Start pf t = Returns tt) ->
  (forall t, watcher_Stop pf t = Returns tt) ->
  exists w',
    (forall args, timeout_readable args -> StartScan pf args w = Normal true w')
    /\ watcher_ w' = Some Started
    /\ events w' = events w ++ [ScanStateChanged true]
    /\ forall l, forallb leaves_scan_alone l = true ->
         match run pf l w' with
         | Normal _ w'' | Thrown w'' =>
             watcher_ w'' = Some Started
             /\ scan_events (events w'') = scan_events (events w')
         | Undefined => False
         end.
Proof.
  intros Hw Hstart Hstop.
  exists (log_event (ScanStateChanged true)
            (set_watcher (Some Started)
               (log_call Call_WatcherStart
                  (if is_Started st
                   then set_watcher (Some Stopped) (log_call Call_WatcherStop w)
                   else w)))).
  split; [| split; [| split]].
  - intros args Hargs. unfold StartScan, timeout_readable in *.
    unfold watcher_is_started, watcher_stop, watcher_start, platform_call, emit.
    cbv beta iota zeta delta [bind ret gets modify throw try_catch].
    destruct (find "timeoutMs" args) as [[]|]; try contradiction;
      cbn [get_int]; unfold ret;
      rewrite Hw; cbv beta iota; destruct (is_Started st);
      repeat (cbv beta iota;
              first [ rewrite Hw | rewrite Hstop | rewrite Hstart
                    | progress cbn [watcher_ set_watcher log_call calls] ]);
      try destruct (0 <? n); reflexivity.
  - reflexivity.
  - destruct (is_Started st); reflexivity.
  - intros l Hl.
    pose proof (keeps_scan_run pf l Hl
                  (log_event (ScanStateChanged true)
                     (set_watcher (Some Started)
                        (log_call Call_WatcherStart
                           (if is_Started st
                            then set_watcher (Some Stopped) (log_call Call_WatcherStop w)
                            else w))))) as H.
    destruct (run pf l _) as [rs w'' | w'' |]; exact H.
Qed.

Lemma start_scan_schedules_no_stop_witness :
  exists w',
    (forall args, timeout_readable args ->
       StartScan demo_platform args (set_watcher (Some Created) initial_world)
         = Normal true w')
    /\ watcher_ w' = Some Started
    /\ events w' = events (set_watcher (Some Created) initial_world) ++ [ScanStateChanged true]
    /\ forall l, forallb leaves_scan_alone l = true ->
         match run demo_platform l w' with
         | Normal _ w'' | Thrown w'' =>
             watcher_ w'' = Some Started
             /\ scan_events (events w'') = scan_events (events w')
         | Undefined => False
         end.
Proof.
  apply (start_scan_schedules_no_stop demo_platform
           (set_watcher (Some Created) initial_world) Created).
  - reflexivity.
  - intros t. reflexivity.
  - intros t. reflexivity.
Defined.

(** startScan with a timeout of 100 ms and no stopScan: a minute later
    the watcher is still started and scanning=true is the only scan-state
    event that was sent. *)
Lemma scan_outlives_its_timeout :
  replies (run demo_platform scan_timeout_script initial_world)
  = Some [ResultSuccess (EBool true); ResultSuccess (EBool true)]
  /\ watcher_after (run demo_platform scan_timeout_script initial_world) = Some Started
  /\ events_after (run demo_platform scan_timeout_script initial_world)
     = [ScanStateChanged true].
Proof. vm_compute. repeat split; reflexivity. Qed.

(** ** The dispatcher and the error boundary *)

(** A [try] block whose handler returns a value lets no exception out. *)
Lemma try_catch_ret_catches {A} (body : M A) (a : A) (w w' : World) :
  try_catch body (ret a) w <> Thrown w'.
Proof.
  unfold try_catch, ret. destruct (body w); discriminate.
Qed.

(** Every operation catches what is thrown inside it, by the platform or
    by its own reading of the arguments. *)
Lemma operations_let_no_exception_out (pf : Platform) (args : EncodableMap)
    (w w' : World) :
  InitializeBluetooth pf w <> Thrown w'
  /\ IsBluetoothAvailable pf w <> Thrown w'
  /\ StartScan pf args w <> Thrown w'
  /\ StopScan pf w <> Thrown w'
  /\ ConnectToDevice pf args w <> Thrown w'
  /\ DisconnectDevice pf args w <> Thrown w'
  /\ DiscoverServices pf args w <> Thrown w'
  /\ WriteCharacteristic pf args w <> Thrown w'
  /\ ReadCharacteristic pf args w <> Thrown w'
  /\ SubscribeToCharacteristic pf args w <> Thrown w'
  /\ UnsubscribeFromCharacteristic pf args w <> Thrown w'.
Proof.
  repeat split; apply try_catch_ret_catches.
Qed.

(** The dispatcher reads [arguments] as a map before it enters any
    operation: for the methods that take arguments, a value of another
    alternative makes that [std::get] throw, and the exception leaves
    [HandleMethodCall]. *)
Lemma dispatch_throws_on_non_map (pf : Platform) (method_name : string)
    (v : EncodableValue) (w : World) :
  takes_arguments method_name = true ->
  (forall m, v <> EMap m) ->
  HandleMethodCall pf method_name (Some v) w = Thrown w.
Proof.
  intros Hm Hv. unfold takes_arguments in Hm. apply bool_decide_eq_true_1 in Hm.
  assert (get_map v w = Thrown w) as Hget.
  { destruct v; try reflexivity. exfalso. exact (Hv m eq_refl). }
  repeat (apply elem_of_cons in Hm; destruct Hm as [-> | Hm]);
    [ .. | apply elem_of_nil in Hm; contradiction ];
    cbn [HandleMethodCall String.eqb Ascii.eqb Bool.eqb]; unfold with_args_map;
    apply bind_Thrown; exact Hget.
Qed.

(** C5 at its failing input: a startScan command whose arguments are the
    integer 5.  The exception leaves the dispatcher, on any platform and
    in any state; here on the example platform, in the initial state. *)
Lemma start_scan_with_integer_arguments_throws :
  HandleMethodCall demo_platform "startScan" (Some (EInt 5)) initial_world
  = Thrown initial_world.
Proof.
  apply dispatch_throws_on_non_map; [reflexivity | discriminate].
Qed.

(** Calling startScan before initialize goes through the null watcher. *)
Example start_scan_before_initialize :
  HandleMethodCall demo_platform "startScan" (Some (EMap [])) initial_world = Undefined.
Proof. reflexivity. Qed.

(** A characteristic enumeration that throws, unlike one that reports a
    failure status, empties the whole reply. *)
Example discover_services_enumeration_throws :
  replies (DiscoverServices enumeration_throws_platform (device_args "a1") connected_world)
  = Some [].
Proof. reflexivity. Qed.

(** The loop up to a characteristic enumeration that throws: the services
    before it are enumerated, the exception leaves the loop, and the
    services after it are never asked. *)
Lemma discover_loop_throws (pf : Platform) (services : list GattDeviceService) :
  forall (service_list : EncodableList) (w : World) (i : nat) (service : GattDeviceService),
    services !! i = Some service ->
    GetCharacteristicsAsync pf (length (calls w) + i) service = Raises ->
    (forall j sj, (j < i)%nat -> services !! j = Some sj ->
       exists r, GetCharacteristicsAsync pf (length (calls w) + j) sj = Returns r) ->
    exists w',
      discover_loop pf services service_list w = Thrown w'
      /\ calls w' = calls w ++ map Call_GetCharacteristicsAsync (take (S i) services).
Proof.
  induction services as [| first rest IH]; intros service_list w i service Hi Hraise Hbefore.
  - rewrite lookup_nil in Hi. discriminate.
  - cbn [discover_loop]. destruct i as [| i].
    + cbn in Hi. injection Hi as <-. rewrite Nat.add_0_r in Hraise.
      unfold bind, platform_call. rewrite Hraise.
      eexists. split; [reflexivity |]. cbn. rewrite take_0. reflexivity.
    + destruct (Hbefore 0%nat first (Nat.lt_0_succ i) eq_refl) as [r0 Hr0].
      rewrite Nat.add_0_r in Hr0.
      rewrite (bind_Normal _ _ _ _ _ (platform_call_Returns _ _ _ _ Hr0)).
      destruct (IH (service_list ++ [service_entry pf first r0])
                   (log_call (Call_GetCharacteristicsAsync first) w) i service)
        as (w' & Hrun & Hcalls).
      * exact Hi.
      * rewrite length_calls_log_call. rewrite <- Hraise. f_equal. lia.
      * intros j sj Hj Hsj. rewrite length_calls_log_call.
        destruct (Hbefore (S j) sj (proj1 (Nat.succ_lt_mono j i) Hj) Hsj) as [r Hr].
        exists r. rewrite <- Hr. f_equal. lia.
      * exists w'. split; [exact Hrun |].
        rewrite Hcalls. cbn. rewrite <- app_assoc. reflexivity.
Qed.

(** C8 where it fails. discoverServices on a connected device whose
    service enumeration succeeds, when the characteristic enumeration of
    one service throws instead of reporting a failure status: the
    exception is caught at the end of the operation and the reply is the
    empty list.  The services enumerated before are dropped from it, the
    failing service is not listed, and the services after it are never
    enumerated, as the trace shows.  The branch for a failure status
    does keep them all. *)
Theorem discover_services_throw_discards_siblings (pf : Platform) (args : EncodableMap)
    (s : string) (w : World) (d : BluetoothLEDevice) (services : list GattDeviceService)
    (i : nat) (service : GattDeviceService) :
  find "deviceId" args = Some (EString s) ->
  connected_devices_ w !! parse_device_address pf s = Some d ->
  GetGattServicesAsync pf (length (calls w)) d = Returns (Success, services) ->
  services !! i = Some service ->
  GetCharacteristicsAsync pf (S (length (calls w)) + i) service = Raises ->
  (forall j sj, (j < i)%nat -> services !! j = Some sj ->
     exists r, GetCharacteristicsAsync pf (S (length (calls w)) + j) sj = Returns r) ->
  exists w',
    DiscoverServices pf args w = Normal [] w'
    /\ calls w' =
         calls w ++ Call_GetGattServicesAsync d
                 :: map Call_GetCharacteristicsAsync (take (S i) services).
Proof.
  intros Hid Hd Hservices Hi Hraise Hbefore.
  destruct (discover_loop_throws pf services []
              (log_call (Call_GetGattServicesAsync d) w) i service Hi)
    as (w' & Hrun & Hcalls).
  { rewrite length_calls_log_call. exact Hraise. }
  { intros j sj Hj Hsj. rewrite length_calls_log_call. eauto. }
  exists w'. split.
  - unfold DiscoverServices. rewrite Hid.
    cbv beta iota zeta delta [bind ret gets throw try_catch get_string lookup_device].
    rewrite Hd. unfold platform_call at 1. rewrite Hservices.
    cbn [fst snd is_Success]. rewrite Hrun. reflexivity.
  - rewrite Hcalls. cbn [calls log_call]. rewrite <- app_assoc. reflexivity.
Qed.

Lemma discover_services_throw_discards_siblings_witness :
  exists w',
    DiscoverServices enumeration_throws_platform (device_args "a1") connected_world
      = Normal [] w'
    /\ calls w' =
         calls connected_world
         ++ [ Call_GetGattServicesAsync (Device 161);
              Call_GetCharacteristicsAsync (Service 1);
              Call_GetCharacteristicsAsync (Service 2) ].
Proof.
  apply (discover_services_throw_discards_siblings enumeration_throws_platform
           (device_args "a1") "a1" connected_world (Device 161)
           [Service 1; Service 2; Service 3] 1%nat (Service 2)).
  - reflexivity.
  - vm_compute. reflexivity.
  - reflexivity.
  - reflexivity.
  - reflexivity.
  - intros j sj Hj Hsj. destruct j as [| j]; [| lia].
    cbn in Hsj. injection Hsj as <-. eexists. reflexivity.
Defined.

(** ** Further properties of the command surface *)

(** The teardown can be repeated: dispose twice in a row replies success
    both times, whatever the platform does when the watcher is stopped. *)
Theorem dispose_twice_succeeds (pf : Platform) (a1 a2 : option EncodableValue) (w : World) :
  exists w',
    run pf [MethodCall "dispose" a1; MethodCall "dispose" a2] w
    = Normal [ResultSuccess (EBool true); ResultSuccess (EBool true)] w'
    /\ connected_devices_ w' = ∅.
Proof.
  destruct (teardown_keeps_subscriptions pf w) as (w1 & H1 & _).
  destruct (teardown_keeps_subscriptions pf w1) as (w2 & H2 & Hreg & _).
  exists w2. split; [| exact Hreg].
  cbn [run deliver].
  change (HandleMethodCall pf "dispose" a1)
    with (bind (teardown pf) (fun _ => ret (ResultSuccess (EBool true)))).
  change (HandleMethodCall pf "dispose" a2)
    with (bind (teardown pf) (fun _ => ret (ResultSuccess (EBool true)))).
  unfold bind, ret. rewrite H1, H2. reflexivity.
Qed.

(** The peripheral-mode commands answer with fixed values and touch
    nothing: no platform call, no event, no change of state. *)
Theorem advertising_is_fixed (pf : Platform) (arguments : option EncodableValue) (w : World) :
  HandleMethodCall pf "startAdvertising" arguments w = Normal (ResultSuccess (EBool false)) w
  /\ HandleMethodCall pf "stopAdvertising" arguments w = Normal (ResultSuccess (EBool true)) w.
Proof. split; reflexivity. Qed.

(** A subscribe that replies false has registered no handler and stored
    no token: the notification write comes before the handler, so a
    failed write leaves nothing to roll back. *)
Theorem failed_subscribe_registers_nothing (pf : Platform) (args : EncodableMap)
    (w w' : World) :
  SubscribeToCharacteristic pf args w = Normal false w' ->
  notification_tokens_ w' = notification_tokens_ w
  /\ value_changed w' = value_changed w.
Proof.
  unfold SubscribeToCharacteristic.
  destruct (find "deviceId" args) as [[]|];
  destruct (find "serviceUuid" args) as [[]|];
  destruct (find "characteristicUuid" args) as [[]|];
  destruct (find "notificationChannel" args) as [[]|];
  cbv beta iota zeta delta [bind ret gets modify throw try_catch get_string lookup_device];
  try (intros H; injection H as <-; split; reflexivity).
  destruct (connected_devices_ w !! parse_device_address pf s) as [device|];
    [| intros H; injection H as <-; split; reflexivity].
  destruct (resolve_characteristic pf device s0 s1 w) as [[c|] w1 | w1 |] eqn:Hr;
    try discriminate;
    [ apply resolve_characteristic_Normal in Hr
    | apply resolve_characteristic_Normal in Hr
    | apply resolve_characteristic_Thrown in Hr ];
    destruct Hr as (_ & _ & Htok & _ & _ & _ & _ & _ & Hvc & _ & _);
    try (intros H; injection H as <-; split; assumption).
  destruct (has_flag _ _); cbn [negb];
    [| intros H; injection H as <-; split; assumption].
  unfold install_stream_handler, platform_call. cbn [calls set_streams].
  destruct (WriteClientCharacteristicConfigurationDescriptorAsync pf _ c CccdNotify)
    as [[]|]; cbn [is_Success negb]; unfold ValueChanged_add; try discriminate;
    intros H; injection H as <-; split; assumption.
Qed.

Lemma failed_subscribe_registers_nothing_witness :
  notification_tokens_
    (world_after (SubscribeToCharacteristic cccd_refused_platform (subscribe_args "a1" "n1"))
       connected_world)
  = notification_tokens_ connected_world
  /\ value_changed
       (world_after (SubscribeToCharacteristic cccd_refused_platform (subscribe_args "a1" "n1"))
          connected_world)
     = value_changed connected_world.
Proof.
  apply (failed_subscribe_registers_nothing cccd_refused_platform
           (subscribe_args "a1" "n1") connected_world).
  vm_compute. reflexivity.
Defined.

(** An unsubscribe, however it ends, leaves the records of all other keys
    in the notification table alone. *)
Theorem unsubscribe_keeps_other_keys (pf : Platform) (args : EncodableMap)
    (id su cu : string) (w w' : World) (r : bool) (key : string) :
  find "deviceId" args = Some (EString id) ->
  find "serviceUuid" args = Some (EString su) ->
  find "characteristicUuid" args = Some (EString cu) ->
  key <> subscription_key id su cu ->
  UnsubscribeFromCharacteristic pf args w = Normal r w' ->
  notification_tokens_ w' !! key = notification_tokens_ w !! key.
Proof.
  intros E1 E2 E3 Hkey Hrun.
  destruct (connected_devices_ w !! parse_device_address pf id) as [d|] eqn:Hd.
  - destruct (resolve_characteristic pf d su cu w) as [[c|] w1 | w1 |] eqn:Hr.
    + pose proof (unsubscribe_after_resolution pf args id su cu w w1 d c E1 E2 E3 Hd Hr) as H.
      destruct (WriteClientCharacteristicConfigurationDescriptorAsync pf _ c CccdNone);
        destruct H as (w2 & Hrun2 & Htok & _); rewrite Hrun in Hrun2;
        injection Hrun2 as _ <-; rewrite Htok; [| reflexivity].
      apply lookup_delete_ne. congruence.
    + destruct (unsubscribe_without_resolution pf args id su cu w w1 d E1 E2 E3 Hd
                  (or_introl Hr)) as (Hrun2 & Htok & _).
      rewrite Hrun in Hrun2. injection Hrun2 as _ <-. rewrite Htok. reflexivity.
    + destruct (unsubscribe_without_resolution pf args id su cu w w1 d E1 E2 E3 Hd
                  (or_intror Hr)) as (Hrun2 & Htok & _).
      rewrite Hrun in Hrun2. injection Hrun2 as _ <-. rewrite Htok. reflexivity.
    + exfalso. exact (resolve_characteristic_defined _ _ _ _ _ Hr).
  - rewrite (unsubscribe_absent_device pf args id w E1 Hd) in Hrun.
    injection Hrun as _ <-. reflexivity.
Qed.

Lemma unsubscribe_keeps_other_keys_witness :
  notification_tokens_
    (world_after (UnsubscribeFromCharacteristic demo_platform (characteristic_args "a1"))
       subscribed_world) !! "b2_s_c"%string
  = notification_tokens_ subscribed_world !! "b2_s_c"%string.
Proof.
  apply (unsubscribe_keeps_other_keys demo_platform (characteristic_args "a1")
           "a1" "s" "c" subscribed_world _ true).
  - reflexivity.
  - reflexivity.
  - reflexivity.
  - discriminate.
  - vm_compute. reflexivity.
Defined.


(** ** The scan commands at their edges *)

(** stopScan: a success without effect when no scan is running, null
    watcher included; on a running scan one Stop call, after which the
    watcher is stopped and scanning=false sent, unless the call throws:
    then the reply is false, nothing is sent and the watcher is as it
    was, ready for another attempt. *)
Theorem stop_scan_by_cases (pf : Platform) (w : World) :
  (watcher_is_started w = false -> StopScan pf w = Normal true w)
  /\ (watcher_is_started w = true ->
      exists r w',
        StopScan pf w = Normal r w'
        /\ calls w' = calls w ++ [Call_WatcherStop]
        /\ connected_devices_ w' = connected_devices_ w
        /\ match watcher_Stop pf (length (calls w)) with
           | Returns _ =>
               r = true /\ watcher_ w' = Some Stopped
               /\ events w' = events w ++ [ScanStateChanged false]
           | Raises =>
               r = false /\ watcher_ w' = watcher_ w /\ events w' = events w
           end).
Proof.
  unfold StopScan, watcher_stop, platform_call, emit.
  cbv beta iota zeta delta [bind ret gets modify throw try_catch undefined].
  split; intros Hrun; rewrite Hrun; [reflexivity |].
  unfold watcher_is_started in Hrun.
  destruct (watcher_ w) as [st|] eqn:Hw; [| discriminate].
  destruct (watcher_Stop pf (length (calls w))); do 2 eexists;
    (split; [reflexivity |]); repeat split; exact Hw.
Qed.

(** startScan with a timeoutMs that is present but not a 32-bit integer:
    the reply is false, nothing is sent, and the watcher is never
    started; the one platform call that may have been made is the Stop of
    a scan that was running. *)
Theorem start_scan_unreadable_timeout (pf : Platform) (args : EncodableMap) (w : World) :
  ~ timeout_readable args ->
  exists w',
    StartScan pf args w = Normal false w'
    /\ events w' = events w
    /\ calls w' = calls w ++ (if watcher_is_started w then [Call_WatcherStop] else [])
    /\ (watcher_is_started w = false -> w' = w).
Proof.
  intros Hargs. unfold timeout_readable in Hargs.
  unfold StartScan, watcher_is_started, watcher_stop, platform_call.
  cbv beta iota zeta delta [bind ret gets modify throw try_catch undefined].
  destruct (watcher_ w) as [st|] eqn:Hw.
  - destruct (is_Started st) eqn:Hst; rewrite ?Hw.
    + destruct (watcher_Stop pf (length (calls w))).
      * destruct (find "timeoutMs" args) as [[]|]; try (exfalso; exact (Hargs I));
          eexists; (split; [reflexivity |]); repeat split; discriminate.
      * eexists; (split; [reflexivity |]); repeat split; discriminate.
    + destruct (find "timeoutMs" args) as [[]|]; try (exfalso; exact (Hargs I));
        eexists; (split; [reflexivity |]); cbn; rewrite ?app_nil_r; repeat split.
  - destruct (find "timeoutMs" args) as [[]|]; try (exfalso; exact (Hargs I));
      eexists; (split; [reflexivity |]); cbn; rewrite ?app_nil_r; repeat split.
Qed.

Lemma start_scan_unreadable_timeout_witness :
  exists w',
    StartScan demo_platform [(EString "timeoutMs", ELong 100)] initial_world = Normal false w'
    /\ events w' = events initial_world
    /\ calls w' = calls initial_world
                  ++ (if watcher_is_started initial_world then [Call_WatcherStop] else [])
    /\ (watcher_is_started initial_world = false -> w' = initial_world).
Proof.
  apply (start_scan_unreadable_timeout demo_platform
           [(EString "timeoutMs", ELong 100)] initial_world).
  intros H. exact H.
Defined.

(** startScan before initialize: with a timeout it can read, the call
    gets as far as [watcher_.Start()] on the null watcher, from the
    operation and from the dispatcher alike; the guard that stopScan and
    dispose put before [watcher_.Stop()] is missing there. *)
Theorem start_scan_before_initialize_is_undefined (pf : Platform)
    (args : EncodableMap) (w : World) :
  watcher_ w = None ->
  timeout_readable args ->
  StartScan pf args w = Undefined
  /\ HandleMethodCall pf "startScan" (Some (EMap args)) w = Undefined.
Proof.
  intros Hw Hargs.
  assert (StartScan pf args w = Undefined) as H.
  { unfold timeout_readable in Hargs.
    unfold StartScan, watcher_is_started, watcher_start.
    cbv beta iota zeta delta [bind ret gets modify throw try_catch undefined emit].
    rewrite Hw.
    destruct (find "timeoutMs" args) as [[]|]; try contradiction;
      cbn [get_int]; unfold ret; rewrite Hw; reflexivity. }
  split; [exact H |].
  change (HandleMethodCall pf "startScan" (Some (EMap args)) w)
    with (completed (StartScan pf args) EBool
            "scan_error" "Failed to start scanning" w).
  unfold completed. rewrite H. reflexivity.
Qed.

Lemma start_scan_before_initialize_is_undefined_witness :
  StartScan demo_platform (scan_args 100) initial_world = Undefined
  /\ HandleMethodCall demo_platform "startScan" (Some (EMap (scan_args 100))) initial_world
     = Undefined.
Proof.
  apply (start_scan_before_initialize_is_undefined demo_platform (scan_args 100) initial_world).
  - reflexivity.
  - exact I.
Defined.

(** A scan from start to stop, on an initialised watcher whose Start and
    Stop do not throw: startScan, stopScan and a second stopScan all
    reply true; scanning=true and then scanning=false are sent, once
    each, in that order; the second stopScan finds no scan and does
    nothing.  The platform sees Start and Stop, preceded by one Stop when
    a scan was already running. *)
Theorem scan_start_stop_stop (pf : Platform) (args : EncodableMap)
    (a1 a2 : option EncodableValue) (w : World)
    (st : BluetoothLEAdvertisementWatcherStatus) :
  watcher_ w = Some st ->
  timeout_readable args ->
  (forall t, watcher_Start pf t = Returns tt) ->
  (forall t, watcher_Stop pf t = Returns tt) ->
  exists w',
    run pf [call "startScan" args; MethodCall "stopScan" a1; MethodCall "stopScan" a2] w
    = Normal [ResultSuccess (EBool true); ResultSuccess (EBool true);
              ResultSuccess (EBool true)] w'
    /\ watcher_ w' = Some Stopped
    /\ events w' = events w ++ [ScanStateChanged true; ScanStateChanged false]
    /\ calls w' = calls w ++ (if is_Started st then [Call_WatcherStop] else [])
                          ++ [Call_WatcherStart; Call_WatcherStop].
Proof.
  intros Hw Hargs Hstart Hstop. unfold timeout_readable in Hargs.
  unfold call. cbn [run deliver HandleMethodCall String.eqb Ascii.eqb Bool.eqb].
  unfold with_args_map, completed, StartScan, StopScan, watcher_is_started,
    watcher_stop, watcher_start, platform_call, emit.
  cbv beta iota zeta delta [bind ret gets modify throw try_catch undefined get_map].
  destruct (find "timeoutMs" args) as [[]|]; try contradiction;
    cbn [get_int]; unfold ret;
    rewrite Hw; cbv beta iota; destruct (is_Started st);
    repeat (cbv beta iota;
            first [ rewrite Hw | rewrite Hstop | rewrite Hstart
                  | progress cbn [watcher_ set_watcher log_call log_event calls
                                  is_Started]
                  | match goal with |- context [0 <? ?n] => destruct (0 <? n) end ]);
    eexists; (split; [reflexivity |]); cbn; rewrite <- ?app_assoc; repeat split.
Qed.

Lemma scan_start_stop_stop_witness :
  exists w',
    run demo_platform
      [call "startScan" (scan_args 100); MethodCall "stopScan" None; MethodCall "stopScan" None]
      (set_watcher (Some Created) initial_world)
    = Normal [ResultSuccess (EBool true); ResultSuccess (EBool true);
              ResultSuccess (EBool true)] w'
    /\ watcher_ w' = Some Stopped
    /\ events w' = events (set_watcher (Some Created) initial_world)
                   ++ [ScanStateChanged true; ScanStateChanged false]
    /\ calls w' = calls (set_watcher (Some Created) initial_world)
                  ++ (if is_Started Created then [Call_WatcherStop] else [])
                  ++ [Call_WatcherStart; Call_WatcherStop].
Proof.
  apply (scan_start_stop_stop demo_platform (scan_args 100) None None
           (set_watcher (Some Created) initial_world) Created).
  - reflexivity.
  - exact I.
  - intros t. reflexivity.
  - intros t. reflexivity.
Defined.

(** ** Advertisements *)

(** Every advertisement is forwarded as a list of one record, repeated
    ones included: nothing is remembered between advertisements, so [k]
    identical ones give [k] identical events.  The record carries the
    placeholder name when the local name is empty.  While no listener is
    attached to the scan-results stream nothing is sent at all. *)
Theorem every_advertisement_is_forwarded (pf : Platform) (address : Z)
    (local_name : string) (rssi : Z) (service_uuids : list guid) :
  exists device_map,
    find "name" device_map
      = Some (EString (if String.eqb local_name "" then "Unknown Device" else local_name))
    /\ find "rssi" device_map = Some (EInt rssi)
    /\ forall (k : nat) (w : World),
         exists w',
           run pf (repeat (WatcherReceived address local_name rssi service_uuids) k) w
             = Normal [] w'
           /\ events w' =
                events w ++ (if scan_results_sink_ w
                             then repeat (ScanResult (EList [EMap device_map])) k
                             else [])
           /\ scan_results_sink_ w' = scan_results_sink_ w
           /\ calls w' = calls w.
Proof.
  exists [ (EString "deviceId", EString (address_to_string pf address));
           (EString "name",
            EString (if String.eqb local_name "" then "Unknown Device"%string
                     else local_name));
           (EString "rssi", EInt rssi);
           (EString "serviceUuids",
            EList (map (fun u => EString (guid_to_string pf u)) service_uuids)) ].
  split; [reflexivity |]. split; [reflexivity |].
  induction k as [| k IH]; intros w.
  - exists w. cbn. destruct (scan_results_sink_ w); rewrite app_nil_r; repeat split.
  - cbn [repeat run deliver]. unfold on_watcher_received, emit.
    cbv beta iota zeta delta [bind ret gets modify].
    destruct (scan_results_sink_ w) eqn:Hsink.
    + match goal with
      | |- context [run pf _ ?w1] => destruct (IH w1) as (w' & Hrun & Hev & Hs & Hc)
      end.
      rewrite Hrun. exists w'. split; [reflexivity |].
      cbn in Hev, Hs, Hc. rewrite Hsink in Hev, Hs.
      rewrite Hev, Hs, Hc, <- app_assoc. repeat split.
    + destruct (IH w) as (w' & Hrun & Hev & Hs & Hc).
      rewrite Hrun. exists w'. rewrite Hsink in Hev, Hs. repeat split; assumption.
Qed.

(** ** The registry at its edges *)

(** connectToDevice reports the platform's answer and records nothing
    else: it makes one platform call, replies true exactly when that call
    returned a device, changes the registry at the parsed address only,
    and on failure (no device, or an exception) changes neither registry
    nor event log. *)
Theorem connect_reports_the_platform_answer (pf : Platform) (args : EncodableMap)
    (s : string) (w : World) :
  find "deviceId" args = Some (EString s) ->
  exists b w',
    ConnectToDevice pf args w = Normal b w'
    /\ calls w' = calls w ++ [Call_FromBluetoothAddressAsync (parse_device_address pf s)]
    /\ (b = true <->
        exists d, FromBluetoothAddressAsync pf (length (calls w)) (parse_device_address pf s)
                  = Returns (Some d))
    /\ (b = false ->
        connected_devices_ w' = connected_devices_ w /\ events w' = events w)
    /\ (b = true ->
        events w' = events w ++ (if connection_state_sink_ w
                                 then [ConnectionState s "connected" true]
                                 else []))
    /\ (forall a, a <> parse_device_address pf s ->
                  connected_devices_ w' !! a = connected_devices_ w !! a).
Proof.
  intros Hid. unfold ConnectToDevice. rewrite Hid.
  unfold platform_call, emit.
  cbv beta iota zeta delta [bind ret gets modify throw try_catch get_string].
  destruct (FromBluetoothAddressAsync pf (length (calls w)) (parse_device_address pf s))
    as [[d|]|].
  - cbn [connection_state_sink_ set_connected_devices log_call].
    destruct (connection_state_sink_ w); do 2 eexists; (split; [reflexivity |]); cbn;
      rewrite ?app_nil_r;
      (repeat split; eauto; try discriminate);
      intros a Ha; apply lookup_insert_ne; congruence.
  - do 2 eexists. split; [reflexivity |]. cbn.
    repeat split; try discriminate. intros [d Hd]. discriminate.
  - do 2 eexists. split; [reflexivity |]. cbn.
    repeat split; try discriminate. intros [d Hd]. discriminate.
Qed.

Lemma connect_reports_the_platform_answer_witness :
  exists b w',
    ConnectToDevice demo_platform (device_args "a1") connected_world = Normal b w'
    /\ calls w' = calls connected_world ++ [Call_FromBluetoothAddressAsync 161]
    /\ (b = true <->
        exists d, FromBluetoothAddressAsync demo_platform (length (calls connected_world)) 161
                  = Returns (Some d))
    /\ (b = false ->
        connected_devices_ w' = connected_devices_ connected_world
        /\ events w' = events connected_world)
    /\ (b = true ->
        events w' = events connected_world
                    ++ (if connection_state_sink_ connected_world
                        then [ConnectionState "a1" "connected" true]
                        else []))
    /\ (forall a, a <> 161 ->
                  connected_devices_ w' !! a = connected_devices_ connected_world !! a).
Proof.
  exact (connect_reports_the_platform_answer demo_platform (device_args "a1") "a1"
           connected_world eq_refl).
Defined.

Lemma disconnect_result (pf : Platform) (args : EncodableMap) (s : string) (w : World) :
  find "deviceId" args = Some (EString s) ->
  DisconnectDevice pf args w
  = Normal true
      ((if connection_state_sink_ w
        then log_event (ConnectionState s "disconnected" false)
        else fun w1 => w1)
         (set_connected_devices
            (delete (parse_device_address pf s) (connected_devices_ w)) w)).
Proof.
  intros Hid. unfold DisconnectDevice. rewrite Hid. unfold emit.
  cbv beta iota zeta delta [bind ret gets modify throw try_catch get_string].
  cbn [connection_state_sink_ set_connected_devices].
  destruct (connection_state_sink_ w); reflexivity.
Qed.

(** disconnectDevice is bookkeeping only, and idempotent: for a deviceId
    that holds something to parse, it never calls the platform, a second
    call leaves the registry as the first left it, and on an address
    that has no entry the registry does not change at all, though the
    reply is true all the same.  (An empty or blank deviceId leaves the
    address variable unwritten, and two calls need not then read the
    same address.) *)
Theorem disconnect_is_idempotent (pf : Platform) (args : EncodableMap)
    (s : string) (w : World) :
  find "deviceId" args = Some (EString s) ->
  Cpp.skipws s <> EmptyString ->
  exists w1 w2,
    DisconnectDevice pf args w = Normal true w1
    /\ DisconnectDevice pf args w1 = Normal true w2
    /\ connected_devices_ w2 = connected_devices_ w1
    /\ calls w2 = calls w
    /\ (connected_devices_ w !! parse_device_address pf s = None ->
        connected_devices_ w1 = connected_devices_ w)
    /\ (forall a, a <> parse_device_address pf s ->
                  connected_devices_ w1 !! a = connected_devices_ w !! a).
Proof.
  intros Hid _. do 2 eexists.
  split; [apply (disconnect_result pf args s w Hid) |].
  split; [apply (disconnect_result pf args s _ Hid) |].
  destruct (connection_state_sink_ w) eqn:Hsink;
    cbn [connection_state_sink_ set_connected_devices log_event]; rewrite Hsink; cbn;
    (split; [apply delete_id, lookup_delete_eq |]);
    (split; [reflexivity |]);
    (split; [intros Hnone; apply delete_id; exact Hnone |]);
    intros a Ha; apply lookup_delete_ne; congruence.
Qed.

Lemma disconnect_is_idempotent_witness :
  exists w1 w2,
    DisconnectDevice demo_platform (device_args "a1") connected_world = Normal true w1
    /\ DisconnectDevice demo_platform (device_args "a1") w1 = Normal true w2
    /\ connected_devices_ w2 = connected_devices_ w1
    /\ calls w2 = calls connected_world
    /\ (connected_devices_ connected_world !! 161 = None ->
        connected_devices_ w1 = connected_devices_ connected_world)
    /\ (forall a, a <> 161 ->
                  connected_devices_ w1 !! a = connected_devices_ connected_world !! a).
Proof.
  apply (disconnect_is_idempotent demo_platform (device_args "a1") "a1" connected_world).
  - reflexivity.
  - discriminate.
Defined.

(** ** Arguments that are missing or of the wrong kind *)

Ltac bad_argument :=
  repeat match goal with
    | |- context [find ?k ?a] =>
        let E := fresh "E" in destruct (find k a) as [[]|] eqn:E
    end;
  cbv beta iota zeta delta [bind ret gets modify throw try_catch get_string lookup_device];
  try reflexivity;
  exfalso;
  match goal with
  | H : ~ _ |- _ => apply H; unfold string_argument; repeat split; eexists; eassumption
  end.

(** A command whose deviceId, serviceUuid, characteristicUuid or
    notificationChannel is missing or is not a string, or whose data is
    missing, gets the failure value at once: the world is as before, so
    no platform call was made, whether or not the device is connected. *)
Theorem bad_argument_fails_at_once (pf : Platform) (args : EncodableMap) (w : World) :
  (~ string_argument "deviceId" args ->
   ConnectToDevice pf args w = Normal false w
   /\ DisconnectDevice pf args w = Normal false w
   /\ DiscoverServices pf args w = Normal [] w)
  /\ (~ (string_argument "deviceId" args /\ string_argument "serviceUuid" args
         /\ string_argument "characteristicUuid" args) ->
      ReadCharacteristic pf args w = Normal ENull w
      /\ WriteCharacteristic pf args w = Normal false w
      /\ SubscribeToCharacteristic pf args w = Normal false w
      /\ UnsubscribeFromCharacteristic pf args w = Normal false w)
  /\ (~ string_argument "notificationChannel" args ->
      SubscribeToCharacteristic pf args w = Normal false w)
  /\ (find "data" args = None -> WriteCharacteristic pf args w = Normal false w).
Proof.
  split; [| split; [| split]].
  - intros H. repeat split.
    + unfold ConnectToDevice. bad_argument.
    + unfold DisconnectDevice. bad_argument.
    + unfold DiscoverServices. bad_argument.
  - intros H. repeat split.
    + unfold ReadCharacteristic. bad_argument.
    + unfold WriteCharacteristic. bad_argument.
    + unfold SubscribeToCharacteristic. bad_argument.
    + unfold UnsubscribeFromCharacteristic. bad_argument.
  - intros H. unfold SubscribeToCharacteristic. bad_argument.
  - intros H. unfold WriteCharacteristic. rewrite H.
    destruct (find "deviceId" args) as [?|]; destruct (find "serviceUuid" args) as [?|];
      destruct (find "characteristicUuid" args) as [?|]; reflexivity.
Qed.

(** ** After disconnect and after dispose *)

(** Once a device has been disconnected, or the plugin disposed, every
    read, write, discoverServices, subscribe and unsubscribe for the
    device gets the failure value without a platform call, until it is
    connected again: the registry is the only thing these operations ask
    whether the device is connected.  After a disconnect this needs a
    deviceId that holds something to parse, so that the later operation
    reads the address the disconnect erased; after dispose the registry
    is empty and any deviceId string will do. *)
Theorem gatt_fails_after_disconnect_or_dispose (pf : Platform) (args : EncodableMap)
    (arguments : option EncodableValue) (s : string) (w : World) :
  find "deviceId" args = Some (EString s) ->
  (Cpp.skipws s <> EmptyString ->
   exists w1,
      DisconnectDevice pf args w = Normal true w1
      /\ ReadCharacteristic pf args w1 = Normal ENull w1
      /\ WriteCharacteristic pf args w1 = Normal false w1
      /\ DiscoverServices pf args w1 = Normal [] w1
      /\ SubscribeToCharacteristic pf args w1 = Normal false w1
      /\ UnsubscribeFromCharacteristic pf args w1 = Normal false w1)
  /\ (exists w1,
        HandleMethodCall pf "dispose" arguments w = Normal (ResultSuccess (EBool true)) w1
        /\ ReadCharacteristic pf args w1 = Normal ENull w1
        /\ WriteCharacteristic pf args w1 = Normal false w1
        /\ DiscoverServices pf args w1 = Normal [] w1
        /\ SubscribeToCharacteristic pf args w1 = Normal false w1
        /\ UnsubscribeFromCharacteristic pf args w1 = Normal false w1).
Proof.
  intros Hid.
  assert (forall w1,
             connected_devices_ w1 !! parse_device_address pf s = None ->
             ReadCharacteristic pf args w1 = Normal ENull w1
             /\ WriteCharacteristic pf args w1 = Normal false w1
             /\ DiscoverServices pf args w1 = Normal [] w1
             /\ SubscribeToCharacteristic pf args w1 = Normal false w1
             /\ UnsubscribeFromCharacteristic pf args w1 = Normal false w1) as Habsent.
  { intros w1 Hnone.
    assert (forall s', find "deviceId" args = Some (EString s') ->
                       connected_devices_ w1 !! parse_device_address pf s' = None) as H.
    { intros s' Hs'. rewrite Hid in Hs'. injection Hs' as <-. exact Hnone. }
    clear Hid Hnone. repeat split.
    - unfold ReadCharacteristic. absent_device H.
    - unfold WriteCharacteristic. absent_device H.
    - unfold DiscoverServices. absent_device H.
    - unfold SubscribeToCharacteristic. absent_device H.
    - unfold UnsubscribeFromCharacteristic. absent_device H. }
  split.
  - intros _. eexists. split; [apply (disconnect_result pf args s w Hid) |].
    apply Habsent.
    destruct (connection_state_sink_ w); cbn; apply lookup_delete_eq.
  - destruct (teardown_keeps_subscriptions pf w) as (w1 & Hrun & Hreg & _).
    exists w1. split.
    + change (HandleMethodCall pf "dispose" arguments w)
        with (bind (teardown pf) (fun _ => ret (ResultSuccess (EBool true))) w).
      rewrite (bind_Normal _ _ _ _ _ Hrun). reflexivity.
    + apply Habsent. rewrite Hreg. apply lookup_empty.
Qed.

Lemma gatt_fails_after_disconnect_or_dispose_witness :
  (exists w1,
      DisconnectDevice demo_platform (subscribe_args "a1" "n1") subscribed_world
        = Normal true w1
      /\ ReadCharacteristic demo_platform (subscribe_args "a1" "n1") w1 = Normal ENull w1
      /\ WriteCharacteristic demo_platform (subscribe_args "a1" "n1") w1 = Normal false w1
      /\ DiscoverServices demo_platform (subscribe_args "a1" "n1") w1 = Normal [] w1
      /\ SubscribeToCharacteristic demo_platform (subscribe_args "a1" "n1") w1
         = Normal false w1
      /\ UnsubscribeFromCharacteristic demo_platform (subscribe_args "a1" "n1") w1
         = Normal false w1)
  /\ (exists w1,
        HandleMethodCall demo_platform "dispose" None subscribed_world
          = Normal (ResultSuccess (EBool true)) w1
        /\ ReadCharacteristic demo_platform (subscribe_args "a1" "n1") w1 = Normal ENull w1
        /\ WriteCharacteristic demo_platform (subscribe_args "a1" "n1") w1 = Normal false w1
        /\ DiscoverServices demo_platform (subscribe_args "a1" "n1") w1 = Normal [] w1
        /\ SubscribeToCharacteristic demo_platform (subscribe_args "a1" "n1") w1
           = Normal false w1
        /\ UnsubscribeFromCharacteristic demo_platform (subscribe_args "a1" "n1") w1
           = Normal false w1).
Proof.
  destruct (gatt_fails_after_disconnect_or_dispose demo_platform
              (subscribe_args "a1" "n1") None "a1" subscribed_world eq_refl)
    as [Hdisconnect Hdispose].
  split; [apply Hdisconnect; discriminate | exact Hdispose].
Defined.

(** ** Capabilities *)

Lemma land_pow2 (p : Z) (k : Z) :
  0 <= k -> Z.land p (2 ^ k) = if Z.testbit p k then 2 ^ k else 0.
Proof.
  intros Hk. apply Z.bits_inj'. intros i Hi.
  rewrite Z.land_spec, Z.pow2_bits_eqb by assumption.
  destruct (Z.eqb_spec k i) as [<- | Hne].
  - destruct (Z.testbit p k) eqn:Hp; cbn.
    + rewrite Z.pow2_bits_eqb, Z.eqb_refl by assumption. reflexivity.
    + rewrite Z.bits_0. reflexivity.
  - rewrite andb_false_r.
    destruct (Z.testbit p k).
    + rewrite Z.pow2_bits_eqb by assumption.
      symmetry. apply Z.eqb_neq. exact Hne.
    + rewrite Z.bits_0. reflexivity.
Qed.

Lemma has_flag_pow2 (p : Z) (k : Z) :
  0 <= k -> has_flag p (2 ^ k) = Z.testbit p k.
Proof.
  intros Hk. unfold has_flag. rewrite land_pow2 by assumption.
  destruct (Z.testbit p k).
  - apply Z.eqb_refl.
  - apply Z.eqb_neq. apply Z.lt_neq. apply Z.pow_pos_nonneg; lia.
Qed.

(** The capability names are read off three bits of the property mask
    and nothing else: read is bit 1, write bit 3, notify bit 4, listed in
    that order.  The other bits do not count, so a characteristic that
    offers only write-without-response (bit 2) is not listed as writable
    and one that offers only indications (bit 5) is not listed as
    notifiable. *)
Theorem properties_list_reads_three_bits (props : Z) :
  properties_list props
  = (if Z.testbit props 1 then [EString "read"] else [])
    ++ (if Z.testbit props 3 then [EString "write"] else [])
    ++ (if Z.testbit props 4 then [EString "notify"] else []).
Proof.
  unfold properties_list, GattCharacteristicProperties_Read,
    GattCharacteristicProperties_Write, GattCharacteristicProperties_Notify.
  change 2 with (2 ^ 1). change 8 with (2 ^ 3). change 16 with (2 ^ 4).
  rewrite !has_flag_pow2 by lia. reflexivity.
Qed.

(** subscribe asks for bit 4 of the property mask and for nothing else:
    when it is clear, the call ends with false at the resolved
    characteristic, before any channel is set up and before any
    descriptor write, whatever the other bits say. *)
Theorem subscribe_requires_the_notify_bit (pf : Platform) (args : EncodableMap)
    (id su cu channel : string) (w w1 : World) (d : BluetoothLEDevice)
    (c : GattCharacteristic) :
  find "deviceId" args = Some (EString id) ->
  find "serviceUuid" args = Some (EString su) ->
  find "characteristicUuid" args = Some (EString cu) ->
  find "notificationChannel" args = Some (EString channel) ->
  connected_devices_ w !! parse_device_address pf id = Some d ->
  resolve_characteristic pf d su cu w = Normal (Some c) w1 ->
  Z.testbit (CharacteristicProperties c) 4 = false ->
  SubscribeToCharacteristic pf args w = Normal false w1
  /\ stream_handlers w1 = stream_handlers w
  /\ value_changed w1 = value_changed w
  /\ notification_tokens_ w1 = notification_tokens_ w.
Proof.
  intros E1 E2 E3 E4 Hd Hr Hbit.
  pose proof (resolve_characteristic_Normal _ _ _ _ _ _ _ Hr)
    as (_ & _ & Htok & _ & _ & Hsh & _ & _ & Hvc & _ & _).
  split; [| repeat split; assumption].
  unfold SubscribeToCharacteristic. rewrite E1, E2, E3, E4.
  cbv beta iota zeta delta [bind ret gets modify throw try_catch get_string lookup_device].
  rewrite Hd, Hr.
  unfold GattCharacteristicProperties_Notify. change 16 with (2 ^ 4).
  rewrite has_flag_pow2 by lia. rewrite Hbit. reflexivity.
Qed.

Lemma subscribe_requires_the_notify_bit_witness :
  SubscribeToCharacteristic indicate_only_platform (subscribe_args "a1" "n1") connected_world
  = Normal false
      (log_call (Call_GetCharacteristicsForUuidAsync (Service 1) 1)
         (log_call (Call_GetGattServicesForUuidAsync (Device 161) 1) connected_world))
  /\ stream_handlers
       (log_call (Call_GetCharacteristicsForUuidAsync (Service 1) 1)
          (log_call (Call_GetGattServicesForUuidAsync (Device 161) 1) connected_world))
     = stream_handlers connected_world
  /\ value_changed
       (log_call (Call_GetCharacteristicsForUuidAsync (Service 1) 1)
          (log_call (Call_GetGattServicesForUuidAsync (Device 161) 1) connected_world))
     = value_changed connected_world
  /\ notification_tokens_
       (log_call (Call_GetCharacteristicsForUuidAsync (Service 1) 1)
          (log_call (Call_GetGattServicesForUuidAsync (Device 161) 1) connected_world))
     = notification_tokens_ connected_world.
Proof.
  apply (subscribe_requires_the_notify_bit indicate_only_platform (subscribe_args "a1" "n1")
           "a1" "s" "c" "n1" connected_world _ (Device 161)
           {| characteristic_Uuid := 1; CharacteristicProperties := 34;
              characteristic_handle := 1 |});
    reflexivity.
Defined.

(** ** The key of a subscription record *)

Lemma length_append (a b : string) :
  String.length (a +:+ b) = (String.length a + String.length b)%nat.
Proof.
  induction a as [| c a IH]; [reflexivity |].
  change (S (String.length (a +:+ b)) = S (String.length a + String.length b)).
  rewrite IH. reflexivity.
Qed.

Lemma append_assoc (a b c : string) : (a +:+ b) +:+ c = a +:+ (b +:+ c).
Proof.
  induction a as [| x a IH]; [reflexivity |].
  change (String x ((a +:+ b) +:+ c) = String x (a +:+ (b +:+ c))).
  rewrite IH. reflexivity.
Qed.

Lemma append_inv_tail (a b t : string) : a +:+ t = b +:+ t -> a = b.
Proof.
  revert b. induction a as [| x a IH]; intros [| y b] H.
  - reflexivity.
  - exfalso. apply (f_equal String.length) in H.
    rewrite !length_append in H. cbn [String.length] in H. lia.
  - exfalso. apply (f_equal String.length) in H.
    rewrite !length_append in H. cbn [String.length] in H. lia.
  - change (String x (a +:+ t) = String y (b +:+ t)) in H.
    injection H as -> H. f_equal. apply IH, H.
Qed.

(** Where the first underscore stands decides both sides. *)
Lemma split_at_first_underscore (a b r1 r2 : string) :
  no_underscore a = true -> no_underscore b = true ->
  a +:+ String "_" r1 = b +:+ String "_" r2 ->
  a = b /\ r1 = r2.
Proof.
  revert b. induction a as [| x a IH]; intros [| y b] Ha Hb H.
  - injection H as ->. split; reflexivity.
  - change (String "_" r1 = String y (b +:+ String "_" r2)) in H.
    injection H as <- _. discriminate Hb.
  - change (String x (a +:+ String "_" r1) = String "_" r2) in H.
    injection H as -> _. discriminate Ha.
  - change (String x (a +:+ String "_" r1) = String y (b +:+ String "_" r2)) in H.
    injection H as -> H.
    cbn [no_underscore] in Ha, Hb.
    apply andb_prop in Ha. apply andb_prop in Hb.
    destruct (IH b (proj2 Ha) (proj2 Hb) H) as [-> ->]. split; reflexivity.
Qed.

(** The key tells the three strings apart as long as deviceId and
    serviceUuid hold no underscore; an underscore in them can move
    between the parts without changing the key, so two different
    subscriptions can then share one record.  For one service and one
    characteristic, different spellings of the deviceId always have
    different keys, also when they parse to the same address. *)
Theorem subscription_key_injectivity :
  (forall id1 su1 cu1 id2 su2 cu2,
      no_underscore id1 = true -> no_underscore su1 = true ->
      no_underscore id2 = true -> no_underscore su2 = true ->
      subscription_key id1 su1 cu1 = subscription_key id2 su2 cu2 ->
      id1 = id2 /\ su1 = su2 /\ cu1 = cu2)
  /\ (forall a b c d,
        subscription_key (a +:+ "_" +:+ b) c d = subscription_key a (b +:+ "_" +:+ c) d)
  /\ (forall id1 id2 su cu,
        subscription_key id1 su cu = subscription_key id2 su cu -> id1 = id2).
Proof.
  unfold subscription_key. split; [| split].
  - intros id1 su1 cu1 id2 su2 cu2 H1 H2 H3 H4 H. cbn in H.
    destruct (split_at_first_underscore _ _ _ _ H1 H3 H) as [-> H'].
    destruct (split_at_first_underscore _ _ _ _ H2 H4 H') as [-> ->].
    repeat split.
  - intros a b c d. rewrite !append_assoc. reflexivity.
  - intros id1 id2 su cu H. exact (append_inv_tail _ _ _ H).
Qed.

(** An unsubscribe for which the table holds no record changes neither
    the table nor the registered handlers, whatever it replies: a record
    stored under another spelling of the same device stays, with its
    handler. *)
Theorem unsubscribe_without_record_is_a_no_op (pf : Platform) (args : EncodableMap)
    (id su cu : string) (w w' : World) (r : bool) :
  find "deviceId" args = Some (EString id) ->
  find "serviceUuid" args = Some (EString su) ->
  find "characteristicUuid" args = Some (EString cu) ->
  notification_tokens_ w !! subscription_key id su cu = None ->
  UnsubscribeFromCharacteristic pf args w = Normal r w' ->
  notification_tokens_ w' = notification_tokens_ w
  /\ value_changed w' = value_changed w.
Proof.
  intros E1 E2 E3 Hkey Hrun.
  destruct (connected_devices_ w !! parse_device_address pf id) as [d|] eqn:Hd.
  - destruct (resolve_characteristic pf d su cu w) as [[c|] w1 | w1 |] eqn:Hr.
    + pose proof (unsubscribe_after_resolution pf args id su cu w w1 d c E1 E2 E3 Hd Hr) as H.
      rewrite Hkey in H.
      destruct (WriteClientCharacteristicConfigurationDescriptorAsync pf _ c CccdNone);
        destruct H as (w2 & Hrun2 & Htok & Hvc); rewrite Hrun in Hrun2;
        injection Hrun2 as _ <-; split; try assumption.
      rewrite Htok. apply delete_id, Hkey.
    + destruct (unsubscribe_without_resolution pf args id su cu w w1 d E1 E2 E3 Hd
                  (or_introl Hr)) as (Hrun2 & Htok & Hvc).
      rewrite Hrun in Hrun2. injection Hrun2 as _ <-. split; assumption.
    + destruct (unsubscribe_without_resolution pf args id su cu w w1 d E1 E2 E3 Hd
                  (or_intror Hr)) as (Hrun2 & Htok & Hvc).
      rewrite Hrun in Hrun2. injection Hrun2 as _ <-. split; assumption.
    + exfalso. exact (resolve_characteristic_defined _ _ _ _ _ Hr).
  - rewrite (unsubscribe_absent_device pf args id w E1 Hd) in Hrun.
    injection Hrun as _ <-. split; reflexivity.
Qed.

Lemma unsubscribe_without_record_is_a_no_op_witness :
  notification_tokens_
    (world_after (UnsubscribeFromCharacteristic demo_platform (characteristic_args "A1"))
       subscribed_world)
  = notification_tokens_ subscribed_world
  /\ value_changed
       (world_after (UnsubscribeFromCharacteristic demo_platform (characteristic_args "A1"))
          subscribed_world)
     = value_changed subscribed_world.
Proof.
  apply (unsubscribe_without_record_is_a_no_op demo_platform (characteristic_args "A1")
           "A1" "s" "c" subscribed_world _ true).
  - reflexivity.
  - reflexivity.
  - reflexivity.
  - vm_compute. reflexivity.
  - vm_compute. reflexivity.
Defined.

(** ** What leaves the notification bookkeeping alone *)

Lemma table_frame_refl w : table_frame w w.
Proof. repeat split. Qed.

Lemma table_frame_trans w1 w2 w3 :
  table_frame w1 w2 -> table_frame w2 w3 -> table_frame w1 w3.
Proof. intros (H1 & H2 & H3) (H4 & H5 & H6). repeat split; congruence. Qed.

Lemma keeps_tables_ret {A} (a : A) : keeps_tables (ret a).
Proof. intros w. apply table_frame_refl. Qed.

Lemma keeps_tables_throw {A} : keeps_tables (@throw A).
Proof. intros w. apply table_frame_refl. Qed.

Lemma keeps_tables_undefined {A} : keeps_tables (@undefined A).
Proof. intros w. exact I. Qed.

Lemma keeps_tables_gets {A} (f : World -> A) : keeps_tables (gets f).
Proof. intros w. apply table_frame_refl. Qed.

Lemma keeps_tables_bind {A B} (m : M A) (k : A -> M B) :
  keeps_tables m -> (forall a, keeps_tables (k a)) -> keeps_tables (bind m k).
Proof.
  intros Hm Hk w. unfold bind. specialize (Hm w).
  destruct (m w) as [a w1 | w1 |]; try assumption.
  specialize (Hk a w1). destruct (k a w1); try assumption;
    eapply table_frame_trans; eassumption.
Qed.

Lemma keeps_tables_try_catch {A} (body handler : M A) :
  keeps_tables body -> keeps_tables handler -> keeps_tables (try_catch body handler).
Proof.
  intros Hb Hh w. unfold try_catch. specialize (Hb w).
  destruct (body w) as [a w1 | w1 |]; try assumption.
  specialize (Hh w1). destruct (handler w1); try assumption;
    eapply table_frame_trans; eassumption.
Qed.

Lemma keeps_tables_modify (f : World -> World) :
  (forall w, table_frame w (f w)) -> keeps_tables (modify f).
Proof. intros H w. apply H. Qed.

Lemma keeps_tables_platform_call {A} c (ans : nat -> answer A) :
  keeps_tables (platform_call c ans).
Proof.
  intros w. unfold platform_call. destruct (ans _); repeat split.
Qed.

Lemma keeps_tables_of_answer {A} (a : answer A) : keeps_tables (of_answer a).
Proof. destruct a; [apply keeps_tables_ret | apply keeps_tables_throw]. Qed.

Lemma keeps_tables_emit (e : HostEvent) : keeps_tables (emit e).
Proof. intros w. repeat split. Qed.

Lemma keeps_tables_get (v : EncodableValue) :
  keeps_tables (get_string v) /\ keeps_tables (get_int v) /\ keeps_tables (get_bool v)
  /\ keeps_tables (get_bytes v) /\ keeps_tables (get_map v).
Proof.
  repeat split; destruct v; first [apply keeps_tables_ret | apply keeps_tables_throw].
Qed.

Ltac keeps_tables_step :=
  first
    [ apply keeps_tables_ret | apply keeps_tables_throw | apply keeps_tables_undefined
    | apply keeps_tables_gets | apply keeps_tables_emit
    | apply keeps_tables_platform_call | apply keeps_tables_of_answer
    | apply keeps_tables_get
    | apply keeps_tables_modify; intros ?; repeat split
    | apply keeps_tables_try_catch
    | apply keeps_tables_bind; [| intros ?]
    | match goal with
      | |- keeps_tables (match ?x with _ => _ end) => destruct x
      | |- keeps_tables (if ?x then _ else _) => destruct x
      | |- keeps_tables (let _ := _ in _) => cbv zeta
      end ].

Ltac keeps_tables_auto := repeat keeps_tables_step.

Lemma keeps_tables_resolve_characteristic pf device su cu :
  keeps_tables (resolve_characteristic pf device su cu).
Proof. unfold resolve_characteristic. keeps_tables_auto. Qed.

Lemma keeps_tables_discover_loop pf services :
  forall service_list, keeps_tables (discover_loop pf services service_list).
Proof.
  induction services as [| service rest IH]; intros service_list; cbn [discover_loop].
  - apply keeps_tables_ret.
  - apply keeps_tables_bind; [apply keeps_tables_platform_call | intros r; apply IH].
Qed.

Lemma keeps_tables_for_each {A} (f : A -> M unit) (l : list A) :
  (forall x, keeps_tables (f x)) -> keeps_tables (for_each f l).
Proof.
  intros Hf. induction l as [| x rest IH]; cbn [for_each].
  - apply keeps_tables_ret.
  - apply keeps_tables_bind; [apply Hf | intros _; exact IH].
Qed.

Lemma keeps_tables_completed {A} (operation : M A) encode code message :
  keeps_tables operation -> keeps_tables (completed operation encode code message).
Proof.
  intros H w. unfold completed. specialize (H w). destruct (operation w); assumption.
Qed.

Lemma keeps_tables_with_args_map arguments (k : EncodableMap -> M MethodResult) :
  (forall args_map, keeps_tables (k args_map)) -> keeps_tables (with_args_map arguments k).
Proof.
  intros Hk. unfold with_args_map. destruct arguments as [v|].
  - apply keeps_tables_bind; [apply keeps_tables_get | exact Hk].
  - apply keeps_tables_ret.
Qed.

(** Every operation but subscribe and unsubscribe leaves the
    notification table, the handlers and the token counter alone. *)
Lemma keeps_tables_operations pf args :
  keeps_tables (InitializeBluetooth pf)
  /\ keeps_tables (IsBluetoothAvailable pf)
  /\ keeps_tables (StartScan pf args)
  /\ keeps_tables (StopScan pf)
  /\ keeps_tables (ConnectToDevice pf args)
  /\ keeps_tables (DisconnectDevice pf args)
  /\ keeps_tables (DiscoverServices pf args)
  /\ keeps_tables (WriteCharacteristic pf args)
  /\ keeps_tables (ReadCharacteristic pf args)
  /\ keeps_tables (teardown pf).
Proof.
  repeat split.
  - unfold InitializeBluetooth. keeps_tables_auto.
  - unfold IsBluetoothAvailable. keeps_tables_auto.
  - unfold StartScan, watcher_stop, watcher_start. keeps_tables_auto.
  - unfold StopScan, watcher_stop. keeps_tables_auto.
  - unfold ConnectToDevice. keeps_tables_auto.
  - unfold DisconnectDevice. keeps_tables_auto.
  - unfold DiscoverServices, lookup_device. keeps_tables_auto.
    apply keeps_tables_discover_loop.
  - unfold WriteCharacteristic, lookup_device. keeps_tables_auto;
      apply keeps_tables_resolve_characteristic.
  - unfold ReadCharacteristic, lookup_device. keeps_tables_auto;
      apply keeps_tables_resolve_characteristic.
  - unfold teardown, watcher_stop. keeps_tables_auto.
Qed.

(** ** The notification bookkeeping stays consistent *)

Lemma consistent_ret {A} (a : A) : ends_in consistent_step (ret a).
Proof. intros w H. exact H. Qed.

Lemma consistent_bind {A B} (m : M A) (k : A -> M B) :
  ends_in consistent_step m -> (forall a, ends_in consistent_step (k a)) ->
  ends_in consistent_step (bind m k).
Proof.
  intros Hm Hk w. unfold bind. specialize (Hm w).
  destruct (m w) as [a w1 | w1 |]; try assumption.
  specialize (Hk a w1). destruct (k a w1); try assumption;
    intros H; apply Hk, Hm, H.
Qed.

Lemma consistent_try_catch {A} (body handler : M A) :
  ends_in consistent_step body -> ends_in consistent_step handler ->
  ends_in consistent_step (try_catch body handler).
Proof.
  intros Hb Hh w. unfold try_catch. specialize (Hb w).
  destruct (body w) as [a w1 | w1 |]; try assumption.
  specialize (Hh w1). destruct (handler w1); try assumption;
    intros H; apply Hh, Hb, H.
Qed.

Lemma table_frame_consistent w w' : table_frame w w' -> consistent_step w w'.
Proof.
  intros (Ht & Hv & Hn) H. unfold records_consistent.
  rewrite Ht, Hv, Hn. exact H.
Qed.

Lemma keeps_tables_consistent {A} (m : M A) :
  keeps_tables m -> ends_in consistent_step m.
Proof.
  intros H w. specialize (H w).
  destruct (m w); try exact I; apply table_frame_consistent, H.
Qed.

Lemma consistent_completed {A} (operation : M A) encode code message :
  ends_in consistent_step operation ->
  ends_in consistent_step (completed operation encode code message).
Proof.
  intros H w. unfold completed. specialize (H w). destruct (operation w); assumption.
Qed.

Lemma consistent_with_args_map arguments (k : EncodableMap -> M MethodResult) :
  (forall args_map, ends_in consistent_step (k args_map)) ->
  ends_in consistent_step (with_args_map arguments k).
Proof.
  intros Hk. unfold with_args_map. destruct arguments as [v|].
  - apply consistent_bind; [| exact Hk].
    apply keeps_tables_consistent, keeps_tables_get.
  - apply consistent_ret.
Qed.

Lemma keeps_tables_install_stream_handler channel_name :
  keeps_tables (install_stream_handler channel_name).
Proof. intros w. repeat split. Qed.

(** A new handler with a fresh token, recorded under a key. *)
Lemma consistent_after_subscribe (w w' : World) key c cell :
  notification_tokens_ w' = <[key := next_token w]> (notification_tokens_ w) ->
  value_changed w' =
    value_changed w ++
      [{| reg_characteristic := c; reg_token := next_token w; reg_sink := cell |}] ->
  next_token w' = next_token w + 1 ->
  consistent_step w w'.
Proof.
  intros Ht Hv Hn (H1 & H2 & H3 & H4 & H5). unfold records_consistent.
  rewrite Ht, Hv, Hn. repeat split.
  - intros r Hr. apply in_app_or in Hr. destruct Hr as [Hr | [<- | []]].
    + specialize (H1 r Hr). lia.
    + cbn [reg_token]. lia.
  - intros k t Hk. destruct (decide (k = key)) as [-> | Hne].
    + rewrite lookup_insert_eq in Hk. injection Hk as <-. lia.
    + rewrite lookup_insert_ne in Hk by congruence. specialize (H2 k t Hk). lia.
  - rewrite map_app. cbn [map reg_token].
    assert (Hfresh : ~ In (next_token w) (map reg_token (value_changed w))).
    { intros Hin. apply in_map_iff in Hin. destruct Hin as (r & Heq & Hr).
      specialize (H1 r Hr). lia. }
    clear - H3 Hfresh. induction (map reg_token (value_changed w)) as [| x l IH].
    + constructor; [intros [] | constructor].
    + cbn. inversion H3; subst. constructor.
      * intros Hin. apply in_app_or in Hin. destruct Hin as [Hin | [<- | []]].
        -- contradiction.
        -- apply Hfresh. left. reflexivity.
      * apply IH; [assumption |]. intros Hin. apply Hfresh. right. exact Hin.
  - intros k1 k2 t Hk1 Hk2.
    destruct (decide (k1 = key)) as [-> | Hne1]; destruct (decide (k2 = key)) as [-> | Hne2].
    + reflexivity.
    + rewrite lookup_insert_eq in Hk1. injection Hk1 as <-.
      rewrite lookup_insert_ne in Hk2 by congruence. specialize (H2 _ _ Hk2). lia.
    + rewrite lookup_insert_eq in Hk2. injection Hk2 as <-.
      rewrite lookup_insert_ne in Hk1 by congruence. specialize (H2 _ _ Hk1). lia.
    + rewrite lookup_insert_ne in Hk1 by congruence.
      rewrite lookup_insert_ne in Hk2 by congruence. eapply H4; eassumption.
  - intros k t Hk. destruct (decide (k = key)) as [-> | Hne].
    + rewrite lookup_insert_eq in Hk. injection Hk as <-.
      eexists. split; [apply in_or_app; right; left; reflexivity | reflexivity].
    + rewrite lookup_insert_ne in Hk by congruence.
      destruct (H5 k t Hk) as (r & Hr & Heq).
      exists r. split; [apply in_or_app; left; exact Hr | exact Heq].
Qed.

Lemma NoDup_map_filter {A B} (f : A -> B) (p : A -> bool) (l : list A) :
  List.NoDup (map f l) -> List.NoDup (map f (List.filter p l)).
Proof.
  induction l as [| x l IH]; cbn; intros H; [exact H |].
  inversion H as [| ? ? Hnotin Hrest]; subst.
  destruct (p x); cbn; [| apply IH, Hrest].
  constructor; [| apply IH, Hrest].
  intros Hin. apply Hnotin. apply in_map_iff in Hin.
  destruct Hin as (y & Heq & Hy). apply filter_In in Hy.
  apply in_map_iff. exists y. split; [exact Heq | apply Hy].
Qed.

(** The record under a key erased, and the handlers registered on a
    characteristic under the record's token removed. *)
Lemma consistent_after_unsubscribe (w w' : World) key c token :
  notification_tokens_ w !! key = Some token ->
  notification_tokens_ w' = delete key (notification_tokens_ w) ->
  value_changed w' =
    List.filter (fun r => negb (registered_as c token r)) (value_changed w) ->
  next_token w' = next_token w ->
  consistent_step w w'.
Proof.
  intros Hkey Ht Hv Hn (H1 & H2 & H3 & H4 & H5). unfold records_consistent.
  rewrite Ht, Hv, Hn. repeat split.
  - intros r Hr. apply filter_In in Hr. apply H1, Hr.
  - intros k t Hk. destruct (decide (k = key)) as [-> | Hne].
    + rewrite lookup_delete_eq in Hk. discriminate.
    + rewrite lookup_delete_ne in Hk by congruence. eapply H2, Hk.
  - apply NoDup_map_filter, H3.
  - intros k1 k2 t Hk1 Hk2.
    destruct (decide (k1 = key)) as [-> | Hne1];
      [rewrite lookup_delete_eq in Hk1; discriminate |].
    destruct (decide (k2 = key)) as [-> | Hne2];
      [rewrite lookup_delete_eq in Hk2; discriminate |].
    rewrite lookup_delete_ne in Hk1 by congruence.
    rewrite lookup_delete_ne in Hk2 by congruence. eapply H4; eassumption.
  - intros k t Hk. destruct (decide (k = key)) as [-> | Hne];
      [rewrite lookup_delete_eq in Hk; discriminate |].
    rewrite lookup_delete_ne in Hk by congruence.
    destruct (H5 k t Hk) as (r & Hr & Heq). exists r. split; [| exact Heq].
    apply filter_In. split; [exact Hr |].
    unfold registered_as. rewrite Heq.
    destruct (t =? token) eqn:E; [| rewrite andb_false_r; reflexivity].
    apply Z.eqb_eq in E. rewrite E in Hk. exfalso. apply Hne. eapply H4; eassumption.
Qed.

Ltac consistent_prefix :=
  apply keeps_tables_consistent;
  first [ apply keeps_tables_resolve_characteristic
        | apply keeps_tables_install_stream_handler
        | unfold lookup_device; keeps_tables_auto ].

Ltac consistent_walk tail_lemma :=
  repeat
    match goal with
    | |- ends_in consistent_step (ret _) => apply consistent_ret
    | |- ends_in consistent_step (let _ := _ in _) => cbv zeta
    | |- ends_in consistent_step (match ?x with _ => _ end) => destruct x
    | |- ends_in consistent_step (if ?x then _ else _) => destruct x
    | |- ends_in consistent_step _ => apply tail_lemma
    | |- ends_in consistent_step (bind _ _) =>
        apply consistent_bind; [consistent_prefix | intros ?]
    end.

Lemma consistent_subscribe_tail characteristic cell key :
  ends_in consistent_step
    (let* token := ValueChanged_add characteristic cell in
     let* _ := modify (fun w =>
       set_notification_tokens (<[key := token]> (notification_tokens_ w)) w) in
     ret true).
Proof.
  intros w. cbn.
  eapply consistent_after_subscribe; cbn; reflexivity.
Qed.

Lemma consistent_SubscribeToCharacteristic pf args :
  ends_in consistent_step (SubscribeToCharacteristic pf args).
Proof.
  unfold SubscribeToCharacteristic.
  apply consistent_try_catch; [| apply consistent_ret].
  consistent_walk consistent_subscribe_tail.
Qed.

Lemma consistent_unsubscribe_tail characteristic key (status : GattCommunicationStatus) :
  ends_in consistent_step
    (let* stored := gets (fun w => notification_tokens_ w !! key) in
     let* _ :=
       match stored with
       | Some token =>
           let* _ := ValueChanged_remove characteristic token in
           modify (fun w =>
             set_notification_tokens (delete key (notification_tokens_ w)) w)
       | None => ret tt
       end in
     ret (is_Success status)).
Proof.
  intros w. unfold bind at 1. unfold gets.
  destruct (notification_tokens_ w !! key) as [token|] eqn:Hk; cbn.
  - eapply consistent_after_unsubscribe; cbn; first [exact Hk | reflexivity].
  - intros H. exact H.
Qed.

Lemma consistent_UnsubscribeFromCharacteristic pf args :
  ends_in consistent_step (UnsubscribeFromCharacteristic pf args).
Proof.
  unfold UnsubscribeFromCharacteristic.
  apply consistent_try_catch; [| apply consistent_ret].
  consistent_walk consistent_unsubscribe_tail.
Qed.

Lemma consistent_HandleMethodCall pf method_name arguments :
  ends_in consistent_step (HandleMethodCall pf method_name arguments).
Proof.
  pose proof (fun args => keeps_tables_operations pf args) as Hops.
  unfold HandleMethodCall.
  repeat match goal with
  | |- ends_in _ (if ?b then _ else _) => destruct b
  end;
  try apply consistent_with_args_map; try intros args_map;
  try apply consistent_completed;
  try apply consistent_ret;
  try apply consistent_SubscribeToCharacteristic;
  try apply consistent_UnsubscribeFromCharacteristic;
  try (apply keeps_tables_consistent; apply (Hops []));
  try (apply keeps_tables_consistent; apply (Hops args_map)).
  apply consistent_bind; [| intros ?; apply consistent_ret].
  apply keeps_tables_consistent, (Hops []).
Qed.

Lemma keeps_tables_on_stream channel_name listening :
  keeps_tables (on_stream channel_name listening).
Proof.
  unfold on_stream. apply keeps_tables_modify. intros w.
  destruct (stream_handlers w !! channel_name); [repeat split |].
  destruct (String.eqb channel_name scan_results_channel); [repeat split |].
  destruct (String.eqb channel_name connection_state_channel); repeat split.
Qed.

Lemma keeps_tables_raise_value_changed characteristic data :
  keeps_tables (raise_value_changed characteristic data).
Proof.
  unfold raise_value_changed.
  apply keeps_tables_bind; [apply keeps_tables_gets | intros handlers].
  apply keeps_tables_for_each. intros r. unfold value_changed_handler.
  keeps_tables_auto.
Qed.

Lemma consistent_deliver pf s : ends_in consistent_step (deliver pf s).
Proof.
  destruct s; cbn [deliver];
    try (apply consistent_bind; [| intros ?; apply consistent_ret]);
    try apply consistent_ret.
  - apply consistent_HandleMethodCall.
  - apply keeps_tables_consistent, keeps_tables_on_stream.
  - apply keeps_tables_consistent, keeps_tables_on_stream.
  - apply keeps_tables_consistent. unfold on_watcher_received. keeps_tables_auto.
  - apply keeps_tables_consistent. unfold on_watcher_stopped. keeps_tables_auto.
  - apply keeps_tables_consistent, keeps_tables_raise_value_changed.
Qed.

Lemma consistent_run pf (l : list Stimulus) : ends_in consistent_step (run pf l).
Proof.
  induction l as [| s rest IH]; cbn [run].
  - apply consistent_ret.
  - apply consistent_bind; [apply consistent_deliver | intros r].
    apply consistent_bind; [exact IH | intros rs; apply consistent_ret].
Qed.

Lemma initial_world_consistent : records_consistent initial_world.
Proof.
  unfold records_consistent. cbn. repeat split.
  - intros r [].
  - intros k t Hk. rewrite lookup_empty in Hk. discriminate.
  - constructor.
  - intros k1 k2 t Hk. rewrite lookup_empty in Hk. discriminate.
  - intros k t Hk. rewrite lookup_empty in Hk. discriminate.
Qed.

(** In every state the plugin reaches from its initial state,
    whatever the method calls, listeners, advertisements and value
    changes and whatever the platform answers, the notification
    bookkeeping is consistent, given that the platform never hands out a
    token twice: no two registered handlers and no two records share a
    token, and the token of every record is the token of a handler that
    is still registered.  The converse fails: a handler can outlive its
    record. *)
Theorem reachable_records_are_consistent (pf : Platform) (l : list Stimulus) :
  match run pf l initial_world with
  | Normal _ w | Thrown w => records_consistent w
  | Undefined => True
  end.
Proof.
  pose proof (consistent_run pf l initial_world) as H.
  destruct (run pf l initial_world); try exact I; apply H, initial_world_consistent.
Qed.

(** ** A subscription from beginning to end *)

(** What a successful subscribe went through and what it left. *)
Lemma subscribe_success (pf : Platform) (args : EncodableMap) (w w' : World) :
  SubscribeToCharacteristic pf args w = Normal true w' ->
  exists id su cu ch device c w1,
    find "deviceId" args = Some (EString id)
    /\ find "serviceUuid" args = Some (EString su)
    /\ find "characteristicUuid" args = Some (EString cu)
    /\ find "notificationChannel" args = Some (EString ch)
    /\ connected_devices_ w !! parse_device_address pf id = Some device
    /\ resolve_characteristic pf device su cu w = Normal (Some c) w1
    /\ notification_tokens_ w' =
         <[subscription_key id su cu := next_token w]> (notification_tokens_ w)
    /\ value_changed w' =
         value_changed w ++
           [{| reg_characteristic := c;
               reg_token := next_token w;
               reg_sink := length (sink_channels w) |}]
    /\ next_token w' = next_token w + 1
    /\ stream_handlers w' = <[ch := length (sink_channels w)]> (stream_handlers w)
    /\ sink_channels w' = sink_channels w ++ [ch]
    /\ attached_sinks w' = attached_sinks w
    /\ connected_devices_ w' = connected_devices_ w
    /\ events w' = events w.
Proof.
  unfold SubscribeToCharacteristic.
  destruct (find "deviceId" args) as [[]|] eqn:E1;
  destruct (find "serviceUuid" args) as [[]|] eqn:E2;
  destruct (find "characteristicUuid" args) as [[]|] eqn:E3;
  destruct (find "notificationChannel" args) as [[]|] eqn:E4;
  cbv beta iota zeta delta [bind ret gets modify throw try_catch get_string lookup_device];
  try discriminate.
  destruct (connected_devices_ w !! parse_device_address pf s) as [device|] eqn:Hd;
    [| discriminate].
  destruct (resolve_characteristic pf device s0 s1 w) as [[c|] w1 | w1 |] eqn:Hr;
    try discriminate.
  pose proof (resolve_characteristic_Normal _ _ _ _ _ _ _ Hr)
    as (_ & Hdev & Htok & _ & _ & Hsh & Hat & Hcell & Hvc & Hnext & Hev).
  destruct (has_flag _ _); cbn [negb]; [| discriminate].
  unfold install_stream_handler, platform_call.
  cbn [calls set_streams].
  destruct (WriteClientCharacteristicConfigurationDescriptorAsync pf _ c CccdNotify)
    as [[]|]; cbn [is_Success negb]; try discriminate.
  unfold ValueChanged_add. intros H. injection H as <-.
  exists s, s0, s1, s2, device, c, w1. cbn.
  rewrite Hdev, Htok, Hsh, Hat, Hcell, Hvc, Hnext, Hev. repeat split; assumption.
Qed.

Lemma same_characteristic_refl c : same_characteristic c c = true.
Proof. unfold same_characteristic. rewrite !Z.eqb_refl. reflexivity. Qed.

Lemma filter_all {A} (p : A -> bool) (l : list A) :
  (forall x, In x l -> p x = true) -> List.filter p l = l.
Proof.
  induction l as [| x l IH]; cbn; intros H; [reflexivity |].
  rewrite (H x) by (left; reflexivity). f_equal. apply IH.
  intros y Hy. apply H. right. exact Hy.
Qed.

Lemma filter_none {A} (p : A -> bool) (l : list A) :
  (forall x, In x l -> p x = false) -> List.filter p l = [].
Proof.
  induction l as [| x l IH]; cbn; intros H; [reflexivity |].
  rewrite (H x) by (left; reflexivity). apply IH.
  intros y Hy. apply H. right. exact Hy.
Qed.

(** Subscribe and unsubscribe undo each other.  Where the deviceId holds
    something to parse, the key had no record, the tokens in use are
    older than the one the platform hands out next, and the
    characteristic resolves at the unsubscribe to what it resolved to at
    the subscribe, an unsubscribe whose descriptor write returns leaves
    the notification table and the registered handlers exactly as they
    were before the subscribe, whatever the status. *)
Theorem subscribe_then_unsubscribe_restores (pf : Platform) (args : EncodableMap)
    (id su cu : string) (device : BluetoothLEDevice) (c : GattCharacteristic)
    (status : GattCommunicationStatus) (w wa w1 wb : World) :
  (forall r, In r (value_changed w) -> reg_token r < next_token w) ->
  find "deviceId" args = Some (EString id) ->
  Cpp.skipws id <> EmptyString ->
  find "serviceUuid" args = Some (EString su) ->
  find "characteristicUuid" args = Some (EString cu) ->
  notification_tokens_ w !! subscription_key id su cu = None ->
  connected_devices_ w !! parse_device_address pf id = Some device ->
  resolve_characteristic pf device su cu w = Normal (Some c) wa ->
  SubscribeToCharacteristic pf args w = Normal true w1 ->
  resolve_characteristic pf device su cu w1 = Normal (Some c) wb ->
  WriteClientCharacteristicConfigurationDescriptorAsync pf (length (calls wb)) c CccdNone
    = Returns status ->
  exists w2,
    UnsubscribeFromCharacteristic pf args w1 = Normal (is_Success status) w2
    /\ notification_tokens_ w2 = notification_tokens_ w
    /\ value_changed w2 = value_changed w.
Proof.
  intros Hfresh E1 _ E2 E3 Hnone Hd Hr Hsub Hr1 Hwrite.
  destruct (subscribe_success _ _ _ _ Hsub)
    as (id' & su' & cu' & ch & device' & c' & wa' & E1' & E2' & E3' & _ & Hd' & Hr'
        & Htok & Hvc & _ & _ & _ & _ & Hdev & _).
  rewrite E1 in E1'. injection E1' as <-.
  rewrite E2 in E2'. injection E2' as <-.
  rewrite E3 in E3'. injection E3' as <-.
  rewrite Hd in Hd'. injection Hd' as <-.
  rewrite Hr in Hr'. injection Hr' as <- <-.
  assert (Hd1 : connected_devices_ w1 !! parse_device_address pf id = Some device)
    by (rewrite Hdev; exact Hd).
  pose proof (unsubscribe_after_resolution pf args id su cu w1 wb device c E1 E2 E3 Hd1 Hr1)
    as H.
  rewrite Hwrite in H. destruct H as (w2 & Hu & Ht2 & Hv2).
  exists w2. split; [exact Hu |]. split.
  - rewrite Ht2, Htok. apply delete_insert_id. exact Hnone.
  - rewrite Hv2, Htok, lookup_insert_eq, Hvc, List.filter_app.
    rewrite filter_all.
    + cbn [List.filter registered_as reg_characteristic reg_token].
      unfold registered_as. cbn [reg_characteristic reg_token].
      rewrite same_characteristic_refl, Z.eqb_refl. cbn. apply app_nil_r.
    + intros r Hin. unfold registered_as.
      destruct (reg_token r =? next_token w) eqn:E;
        [| rewrite andb_false_r; reflexivity].
      apply Z.eqb_eq in E. specialize (Hfresh r Hin). lia.
Qed.

Lemma subscribe_then_unsubscribe_restores_witness :
  exists w2,
    UnsubscribeFromCharacteristic demo_platform (subscribe_args "a1" "n1") subscribed_world
      = Normal true w2
    /\ notification_tokens_ w2 = notification_tokens_ connected_world
    /\ value_changed w2 = value_changed connected_world.
Proof.
  eapply (subscribe_then_unsubscribe_restores demo_platform (subscribe_args "a1" "n1")
            "a1" "s" "c" (Device 161) (Characteristic 1) Success
            connected_world _ subscribed_world _).
  - intros r [].
  - reflexivity.
  - discriminate.
  - reflexivity.
  - reflexivity.
  - vm_compute. reflexivity.
  - vm_compute. reflexivity.
  - vm_compute. reflexivity.
  - vm_compute. reflexivity.
  - vm_compute. reflexivity.
  - vm_compute. reflexivity.
Defined.

(** ** Value changes *)

Lemma log_events_fields (l : list HostEvent) :
  forall w,
    events (log_events l w) = events w ++ l
    /\ attached_sinks (log_events l w) = attached_sinks w
    /\ sink_channels (log_events l w) = sink_channels w
    /\ value_changed (log_events l w) = value_changed w
    /\ notification_tokens_ (log_events l w) = notification_tokens_ w.
Proof.
  unfold log_events. induction l as [| e l IH]; intros w; cbn [fold_left].
  - rewrite app_nil_r. repeat split.
  - destruct (IH (log_event e w)) as (H1 & H2 & H3 & H4 & H5).
    rewrite H1, H2, H3, H4, H5. cbn. rewrite <- app_assoc. repeat split.
Qed.

Lemma log_events_app (a b : list HostEvent) (w : World) :
  log_events (a ++ b) w = log_events b (log_events a w).
Proof. unfold log_events. apply fold_left_app. Qed.

Lemma delivered_log_events (l : list HostEvent) (w : World) data r :
  delivered (log_events l w) data r = delivered w data r.
Proof.
  unfold delivered. destruct (log_events_fields l w) as (_ & H2 & H3 & _).
  rewrite H2, H3. reflexivity.
Qed.

(** The handlers run one after the other: each forwards the payload if
    its cell holds a sink, and nothing else changes. *)
Lemma for_each_handlers (data : list Byte.byte) (l : list Registration) :
  forall w,
    for_each (fun r => value_changed_handler r data) l w
    = Normal tt (log_events (flat_map (delivered w data) l) w).
Proof.
  induction l as [| r l IH]; intros w; cbn [for_each flat_map].
  - reflexivity.
  - unfold bind at 1.
    assert (Hr : value_changed_handler r data w = Normal tt (log_events (delivered w data r) w)).
    { unfold value_changed_handler, delivered, bind, gets, emit, modify, ret.
      destruct (bool_decide _); reflexivity. }
    rewrite Hr, IH. f_equal. rewrite log_events_app.
    replace (flat_map (delivered (log_events (delivered w data r) w) data) l)
      with (flat_map (delivered w data) l); [reflexivity |].
    apply flat_map_ext. intros x. symmetry. apply delivered_log_events.
Qed.

Lemma raise_value_changed_delivers (characteristic : GattCharacteristic)
    (data : list Byte.byte) (w : World) :
  raise_value_changed characteristic data w
  = Normal tt (log_events (notifications_of w characteristic data) w).
Proof.
  unfold raise_value_changed, bind, gets. apply for_each_handlers.
Qed.

Lemma notifications_of_new_handler (w : World) (old : list Registration)
    (c : GattCharacteristic) (token : event_token) (cell : nat) (data : list Byte.byte) :
  value_changed w =
    old ++ [{| reg_characteristic := c; reg_token := token; reg_sink := cell |}] ->
  (forall r, In r old -> same_characteristic (reg_characteristic r) c = false) ->
  notifications_of w c data =
    if bool_decide (cell ∈ attached_sinks w)
    then [Notification (default ""%string (sink_channels w !! cell)) data]
    else [].
Proof.
  intros Hvc Hold. unfold notifications_of. rewrite Hvc, List.filter_app.
  rewrite filter_none by exact Hold.
  cbn [List.filter reg_characteristic app]. rewrite same_characteristic_refl.
  cbn [flat_map]. unfold delivered. cbn [reg_sink].
  destruct (bool_decide _); reflexivity.
Qed.

(** The way of a notification.  After a successful subscribe to a
    characteristic that had no handler yet, a value change reaches the
    host once the notification channel is listened to, as one event on
    that channel carrying the payload; after the listener is cancelled
    it reaches nobody, although the handler stays registered. *)
Theorem subscription_forwards_value_changes (pf : Platform) (args : EncodableMap)
    (id su cu ch : string) (device : BluetoothLEDevice) (c : GattCharacteristic)
    (w wa w1 : World) (data : list Byte.byte) :
  find "deviceId" args = Some (EString id) ->
  find "serviceUuid" args = Some (EString su) ->
  find "characteristicUuid" args = Some (EString cu) ->
  find "notificationChannel" args = Some (EString ch) ->
  connected_devices_ w !! parse_device_address pf id = Some device ->
  resolve_characteristic pf device su cu w = Normal (Some c) wa ->
  (forall r, In r (value_changed w) -> same_characteristic (reg_characteristic r) c = false) ->
  SubscribeToCharacteristic pf args w = Normal true w1 ->
  (exists w3,
     run pf [StreamListen ch; ValueChangedRaised c data] w1 = Normal [] w3
     /\ events w3 = events w ++ [Notification ch data])
  /\ (exists w3,
        run pf [StreamListen ch; StreamCancel ch; ValueChangedRaised c data] w1 = Normal [] w3
        /\ events w3 = events w
        /\ value_changed w3 = value_changed w1).
Proof.
  intros E1 E2 E3 E4 Hd Hr Hold Hsub.
  destruct (subscribe_success _ _ _ _ Hsub)
    as (id' & su' & cu' & ch' & device' & c' & wa' & E1' & E2' & E3' & E4' & Hd' & Hr'
        & _ & Hvc & _ & Hsh & Hsc & Hat & _ & Hev).
  rewrite E1 in E1'. injection E1' as <-.
  rewrite E2 in E2'. injection E2' as <-.
  rewrite E3 in E3'. injection E3' as <-.
  rewrite E4 in E4'. injection E4' as <-.
  rewrite Hd in Hd'. injection Hd' as <-.
  rewrite Hr in Hr'. injection Hr' as <- <-.
  assert (Hcell : stream_handlers w1 !! ch = Some (length (sink_channels w)))
    by (rewrite Hsh; apply lookup_insert_eq).
  split.
  - cbn [run deliver]. unfold bind, ret, on_stream, modify.
    rewrite Hcell, raise_value_changed_delivers.
    eexists. split; [reflexivity |].
    match goal with |- events (log_events ?l ?W) = _ =>
      destruct (log_events_fields l W) as (-> & _)
    end.
    match goal with |- context [notifications_of ?W c data] =>
      rewrite (notifications_of_new_handler W (value_changed w) c (next_token w)
                 (length (sink_channels w)) data Hvc Hold)
    end.
    cbn [events attached_sinks sink_channels set_streams].
    rewrite bool_decide_eq_true_2
      by (apply elem_of_union; right; apply elem_of_singleton; reflexivity).
    rewrite Hsc, Hev.
    rewrite (list_lookup_middle (sink_channels w) [] ch _ eq_refl). reflexivity.
  - cbn [run deliver]. unfold bind, ret, on_stream, modify.
    rewrite Hcell. cbn [stream_handlers set_streams]. rewrite Hcell.
    rewrite raise_value_changed_delivers.
    eexists. split; [reflexivity |].
    match goal with |- events (log_events ?l ?W) = _ /\ _ =>
      destruct (log_events_fields l W) as (-> & _ & _ & -> & _)
    end.
    match goal with |- context [notifications_of ?W c data] =>
      rewrite (notifications_of_new_handler W (value_changed w) c (next_token w)
                 (length (sink_channels w)) data Hvc Hold)
    end.
    cbn [events attached_sinks sink_channels value_changed set_streams].
    rewrite bool_decide_eq_false_2
      by (intros Hin; apply elem_of_difference in Hin; destruct Hin as [_ Hin];
          apply Hin, elem_of_singleton; reflexivity).
    rewrite app_nil_r. split; [exact Hev | reflexivity].
Qed.

Lemma subscription_forwards_value_changes_witness :
  (exists w3,
     run demo_platform [StreamListen "n1"; ValueChangedRaised (Characteristic 1) [Byte.x07]]
       subscribed_world = Normal [] w3
     /\ events w3 = events connected_world ++ [Notification "n1" [Byte.x07]])
  /\ (exists w3,
        run demo_platform
          [StreamListen "n1"; StreamCancel "n1"; ValueChangedRaised (Characteristic 1) [Byte.x07]]
          subscribed_world = Normal [] w3
        /\ events w3 = events connected_world
        /\ value_changed w3 = value_changed subscribed_world).
Proof.
  eapply (subscription_forwards_value_changes demo_platform (subscribe_args "a1" "n1")
            "a1" "s" "c" "n1" (Device 161) (Characteristic 1)
            connected_world _ subscribed_world [Byte.x07]).
  - reflexivity.
  - reflexivity.
  - reflexivity.
  - reflexivity.
  - vm_compute. reflexivity.
  - vm_compute. reflexivity.
  - intros r [].
  - vm_compute. reflexivity.
Defined.

(** ** What the dispatcher can answer *)





(** ** The constructor's streams and the destructor *)

(** The scan-results stream follows its listener.  As long as no
    subscription has installed a handler under the name of the
    scan-results channel, an advertisement that arrives between listen
    and cancel is forwarded and one that arrives after the cancel is
    not, whatever the stream was before; the connection-state listener
    is not affected. *)
Theorem scan_results_follow_the_listener (pf : Platform) (address : Z)
    (local_name : string) (rssi : Z) (service_uuids : list guid) (w : World) :
  stream_handlers w !! scan_results_channel = None ->
  exists w' device_map,
    run pf [ StreamListen scan_results_channel;
             WatcherReceived address local_name rssi service_uuids;
             StreamCancel scan_results_channel;
             WatcherReceived address local_name rssi service_uuids ] w
    = Normal [] w'
    /\ events w' = events w ++ [ScanResult (EList [EMap device_map])]
    /\ scan_results_sink_ w' = false
    /\ connection_state_sink_ w' = connection_state_sink_ w.
Proof.
  intros Hfree.
  cbn [run deliver]. unfold on_watcher_received, emit, on_stream.
  cbv beta iota zeta delta [bind ret gets modify].
  rewrite Hfree, (String.eqb_refl scan_results_channel).
  cbn [scan_results_sink_ stream_handlers set_sinks log_event].
  rewrite Hfree.
  cbn [scan_results_sink_ stream_handlers set_sinks log_event].
  eexists. eexists. split; [reflexivity |]. repeat split.
Qed.

Lemma scan_results_follow_the_listener_witness :
  exists w' device_map,
    run demo_platform
      [ StreamListen scan_results_channel;
        WatcherReceived 161 "lamp" (-40) [1];
        StreamCancel scan_results_channel;
        WatcherReceived 161 "lamp" (-40) [1] ] initial_world
    = Normal [] w'
    /\ events w' = events initial_world ++ [ScanResult (EList [EMap device_map])]
    /\ scan_results_sink_ w' = false
    /\ connection_state_sink_ w' = connection_state_sink_ initial_world.
Proof.
  apply (scan_results_follow_the_listener demo_platform 161 "lamp" (-40) [1] initial_world).
  reflexivity.
Defined.

(** The destructor never throws.  It calls Stop on the watcher whenever
    there is one, started or not, and swallows what the call throws; it
    sends no scanning=false event; it empties the device registry; and
    it leaves the notification table and the registered handlers as
    they are. *)
Theorem destructor_stops_and_clears (pf : Platform) (w : World) :
  exists w',
    destructor pf w = Normal tt w'
    /\ connected_devices_ w' = ∅
    /\ events w' = events w
    /\ notification_tokens_ w' = notification_tokens_ w
    /\ value_changed w' = value_changed w
    /\ match watcher_ w with
       | None => calls w' = calls w /\ watcher_ w' = None
       | Some st =>
           calls w' = calls w ++ [Call_WatcherStop]
           /\ watcher_ w' = match watcher_Stop pf (length (calls w)) with
                            | Returns _ => Some Stopped
                            | Raises => Some st
                            end
       end.
Proof.
  unfold destructor, teardown, watcher_stop, platform_call.
  cbv beta iota zeta delta [bind ret gets modify throw try_catch].
  destruct (watcher_ w) as [st|] eqn:Hw; cbv beta iota; rewrite ?Hw; cbv beta iota.
  - destruct (watcher_Stop pf (length (calls w))); cbv beta iota;
      eexists; (split; [reflexivity |]); cbn; rewrite ?Hw; repeat split.
  - eexists. split; [reflexivity |]. cbn. rewrite Hw. repeat split.
Qed.

(** ** The numeral at the front of a deviceId *)





(** ** What the operations add to the trace *)

Section Ends_in.

Variable R : World -> World -> Prop.
Hypothesis R_refl : forall w, R w w.
Hypothesis R_trans : forall w1 w2 w3, R w1 w2 -> R w2 w3 -> R w1 w3.









End Ends_in.















(** ** Every command goes ahead on the parsed address *)




